(** * Function counter extension: the analyzer and its shell

    A shallow embedding of [src/extension.ts].  The file holds two copies of
    the extension (the second starts after the document separator); they are
    modelled side by side in the modules [Extension] and [Related].  The
    module [OnHeap] has [analyzeCode] of the first copy once more, as a
    computation on the heap of regular expression objects.

    [analyzeCode] is built from three JavaScript facilities that the model
    has to supply: strings (sequences of UTF-16 code units), regular
    expression literals, and [String.prototype.match] with a global regular
    expression.  The matcher follows the continuation-passing semantics of
    ECMA-262 (22.2.2): a pattern is compiled to a function taking a match
    state and a continuation. *)

From Stdlib Require Import Ascii String List NArith Arith Bool Lia.
From Stdlib Require Import DecimalString.
From Stdlib Require DecimalNat DecimalFacts.
Import ListNotations.

Local Open Scope string_scope.
Local Open Scope list_scope.
Local Open Scope N_scope.

(** ** JavaScript strings *)

(** A JavaScript string is a finite sequence of 16-bit code units. *)
Definition codeunit := N.
Definition jsstring := list codeunit.

(** The code units of an ASCII literal of the source. *)
Definition js (s : string) : jsstring :=
  List.map N_of_ascii (list_ascii_of_string s).

Definition unit_of (a : ascii) : codeunit := N_of_ascii a.

(** Strict equality [===] on strings, as used by [switch]. *)
Fixpoint jsstring_eqb (a b : jsstring) : bool :=
  match a, b with
  | [], [] => true
  | x :: a', y :: b' => (x =? y) && jsstring_eqb a' b'
  | _, _ => false
  end.

(** ** Character classes of ECMAScript regular expressions (no [u], no [i]) *)

Definition between (lo hi c : codeunit) : bool := (lo <=? c) && (c <=? hi).

(** [\w]: the set WordCharacters, [A-Za-z0-9_]. *)
Definition isWordChar (c : codeunit) : bool :=
  between 97 122 c || between 65 90 c || between 48 57 c || (c =? 95).

(** [\s]: WhiteSpace and LineTerminator code points. *)
Definition isWhiteSpace (c : codeunit) : bool :=
  between 9 13 c            (* TAB, LF, VT, FF, CR *)
  || (c =? 32)              (* SPACE *)
  || (c =? 160)             (* NO-BREAK SPACE *)
  || (c =? 5760)            (* OGHAM SPACE MARK *)
  || between 8192 8202 c    (* EN QUAD .. HAIR SPACE *)
  || (c =? 8232) || (c =? 8233)   (* LINE / PARAGRAPH SEPARATOR *)
  || (c =? 8239)            (* NARROW NO-BREAK SPACE *)
  || (c =? 8287)            (* MEDIUM MATHEMATICAL SPACE *)
  || (c =? 12288)           (* IDEOGRAPHIC SPACE *)
  || (c =? 65279).          (* ZERO WIDTH NO-BREAK SPACE *)

(** A single character, and the class [[^a]] of everything else. *)
Definition isChar (a : ascii) (c : codeunit) : bool := c =? unit_of a.
Definition isNotChar (a : ascii) (c : codeunit) : bool := negb (isChar a c).

(** ** Patterns *)

Inductive regex : Type :=
| Empty : regex
| CharSet : (codeunit -> bool) -> regex      (* a character or a class *)
| WordBoundary : regex                       (* [\b] *)
| Seq : regex -> regex -> regex
| Alt : regex -> regex -> regex              (* [r1|r2] *)
| Star : regex -> regex.                     (* greedy [r*] *)

(** [r+] is [r] followed by [r*]. *)
Definition Plus (r : regex) : regex := Seq r (Star r).

Definition Chr (a : ascii) : regex := CharSet (isChar a).
Definition NotChr (a : ascii) : regex := CharSet (isNotChar a).

(** A literal word of the pattern, such as [function]. *)
Fixpoint Lit (s : string) : regex :=
  match s with
  | EmptyString => Empty
  | String a EmptyString => Chr a
  | String a s' => Seq (Chr a) (Lit s')
  end.

(** [\w] and [\s] as atoms. *)
Definition word : regex := CharSet isWordChar.
Definition space : regex := CharSet isWhiteSpace.

(** The terms of a pattern in sequence. *)
Definition Cat (l : list regex) : regex := fold_right Seq Empty l.

(** ** The matcher *)

(** The position of the matcher in the input: the code unit just before
    the position (none at index 0) and the code units from the position
    on.  [\b] needs nothing more of the consumed prefix. *)
Record MatchState : Type := mkState {
  lastUnit : option codeunit;
  remaining : jsstring
}.

Definition Continuation := MatchState -> option MatchState.

Definition wordBefore (x : MatchState) : bool :=
  match lastUnit x with Some c => isWordChar c | None => false end.

Definition wordAfter (x : MatchState) : bool :=
  match remaining x with c :: _ => isWordChar c | [] => false end.

(** IsWordChar(e-1) and IsWordChar(e) differ. *)
Definition atWordBoundary (x : MatchState) : bool :=
  xorb (wordBefore x) (wordAfter x).

Definition orElse (a b : option MatchState) : option MatchState :=
  match a with Some z => Some z | None => b end.

Definition Matcher := MatchState -> Continuation -> option MatchState.

(** RepeatMatcher with min 0 and no max, greedy: one more iteration of the
    body [m] is tried first, an iteration that consumes nothing is
    rejected, and the continuation is the fallback.  [fuel] bounds the
    number of iterations; the code units that remain are enough, since
    every iteration consumes one at least. *)
Fixpoint RepeatMatcher (m : Matcher) (fuel : nat) (x : MatchState)
         (c : Continuation) : option MatchState :=
  match fuel with
  | O => c x
  | S fuel' =>
      orElse
        (m x (fun y =>
                if (length (remaining y) <? length (remaining x))%nat
                then RepeatMatcher m fuel' y c
                else None))
        (c x)
  end.

(** [compile r x c]: match [r] at [x] and hand the state reached to the
    continuation [c]; a failure of [c] backtracks into [r]. *)
Fixpoint compile (r : regex) : Matcher :=
  fun x c =>
    match r with
    | Empty => c x
    | CharSet p =>
        match remaining x with
        | ch :: rest => if p ch then c (mkState (Some ch) rest) else None
        | [] => None
        end
    | WordBoundary => if atWordBoundary x then c x else None
    | Seq r1 r2 => compile r1 x (fun y => compile r2 y c)
    | Alt r1 r2 => orElse (compile r1 x c) (compile r2 x c)
    | Star r1 => RepeatMatcher (compile r1) (length (remaining x)) x c
    end.

(** The matcher of a pattern: the final continuation accepts. *)
Definition matcher (r : regex) (x : MatchState) : option MatchState :=
  compile r x Some.

(** ** [String.prototype.match] with a global pattern *)

(** RegExp.prototype[Symbol.match] with the [g] flag sets [lastIndex] to 0
    and calls RegExpBuiltinExec until it fails, collecting the matched
    substrings.  RegExpBuiltinExec tries the matcher at [lastIndex],
    [lastIndex + 1], ... up to the length of the string; a match ending at
    [e] sets [lastIndex] to [e], and after an empty match [lastIndex] is
    advanced by one.

    [scan m pending last input] walks the string once: [input] is what is
    left from the current index on, [last] the code unit before it, and
    [pending] is [lastIndex] minus the current index, the number of
    positions that the previous match still covers. *)
Fixpoint scan (m : MatchState -> option MatchState) (pending : nat)
         (last : option codeunit) (input : jsstring) : list jsstring :=
  match pending with
  | S pending' =>
      match input with
      | [] => []
      | ch :: rest => scan m pending' (Some ch) rest
      end
  | O =>
      match m (mkState last input) with
      | Some y =>
          let consumed := (length input - length (remaining y))%nat in
          firstn consumed input ::
            match input with
            | [] => []
            | ch :: rest => scan m (pred consumed) (Some ch) rest
            end
      | None =>
          match input with
          | [] => []
          | ch :: rest => scan m O (Some ch) rest
          end
      end
  end.

(** A regular expression object: its pattern and the mutable [lastIndex]
    property.  Every literal of the program carries the [g] flag. *)
Record RegExp : Type := mkRegExp {
  pattern : regex;
  lastIndex : nat
}.

(** Evaluating a literal creates a new object whose [lastIndex] is 0. *)
Definition RegExpLiteral (r : regex) : RegExp :=
  {| pattern := r; lastIndex := O |}.

Definition setLastIndex (i : nat) (rx : RegExp) : RegExp :=
  {| pattern := pattern rx; lastIndex := i |}.

(** [text.match(rx)] for a global [rx]: the array of matches, or [null]
    when there is none, and the object as the call leaves it.  The first
    step sets [lastIndex] to 0; the scan starts at index 0 with that
    [lastIndex]; the call of RegExpBuiltinExec that fails, the last one,
    sets [lastIndex] back to 0. *)
Definition String_match (text : jsstring) (rx : RegExp)
  : option (list jsstring) * RegExp :=
  let rx := setLastIndex O rx in
  let A := scan (matcher (pattern rx)) (lastIndex rx) None text in
  (match A with [] => None | _ => Some A end, setLastIndex O rx).

(** [a || []] on an array-or-null. *)
Definition orEmptyArray (a : option (list jsstring)) : list jsstring :=
  match a with Some A => A | None => [] end.

(** [(text.match(/re/g) || []).length] *)
Definition matchCount (text : jsstring) (re : regex) : nat :=
  length (orEmptyArray (fst (String_match text (RegExpLiteral re)))).

(** ** The regular expression literals of [analyzeCode] *)

(** [/\bfunction\s+\w+\s*\(/g] *)
Definition re_function_keyword : regex :=
  Cat [WordBoundary; Lit "function"; Plus space; Plus word; Star space;
       Chr "("].

(** [/\bif\s*\(/g] *)
Definition re_if_paren : regex :=
  Cat [WordBoundary; Lit "if"; Star space; Chr "("].

(** [/\b(for|while)\s*\(/g] *)
Definition re_loop_paren : regex :=
  Cat [WordBoundary; Alt (Lit "for") (Lit "while"); Star space; Chr "("].

(** [/\bdef\s+\w+\s*\(/g] *)
Definition re_def : regex :=
  Cat [WordBoundary; Lit "def"; Plus space; Plus word; Star space; Chr "("].

(** [/\bif\s+[^:]*:/g] *)
Definition re_if_colon : regex :=
  Cat [WordBoundary; Lit "if"; Plus space; Star (NotChr ":"); Chr ":"].

(** [/\b(for|while)\s+[^:]*:/g] *)
Definition re_loop_colon : regex :=
  Cat [WordBoundary; Alt (Lit "for") (Lit "while"); Plus space;
       Star (NotChr ":"); Chr ":"].

(** [/\b\w+\s+\w+\s*\([^)]*\)\s*\{/g] *)
Definition re_function_signature : regex :=
  Cat [WordBoundary; Plus word; Plus space; Plus word; Star space; Chr "(";
       Star (NotChr ")"); Chr ")"; Star space; Chr "{"].

(** ** The analyzer and the shell *)

Record Stats : Type := mkStats {
  functions : nat;
  ifs : nat;
  loops : nat
}.

(** [case 'a': case 'b':] of a [switch] on a string. *)
Definition isOneOf (language : jsstring) (labels : list string) : bool :=
  existsb (fun l => jsstring_eqb language (js l)) labels.

(** What the shell can observe of the editor: the active document, if
    any, with its text and language identifier. *)
Record TextDocument : Type := mkDocument {
  getText : jsstring;
  languageId : jsstring
}.

(** What the shell does, in order: the calls it makes to the analyzer and
    what it writes to the editor window. *)
Inductive Effect : Type :=
| callAnalyzeCode (text language : jsstring)
| showInformationMessage (message : jsstring)
| setStatusBarText (text : jsstring).

(** Number to string in a template literal, for a count. *)
Definition toString (n : nat) : jsstring :=
  js (NilZero.string_of_uint (Nat.to_uint n)).

(** The status-bar text without a document, line 110:
    U+0421 U+0442 U+0430 ... (Cyrillic), 31 code units. *)
Definition noActiveFileText : jsstring :=
  [1057; 1090; 1072; 1090; 1080; 1089; 1090; 1080; 1082; 1072; 58; 32;
   1085; 1077; 1090; 32; 1072; 1082; 1090; 1080; 1074; 1085; 1086; 1075;
   1086; 32; 1092; 1072; 1081; 1083; 1072].

(** The Cyrillic labels of the status-bar template, line 118. *)
Definition functionsLabel : jsstring :=
  [1060; 1091; 1085; 1082; 1094; 1080; 1080].
Definition loopsLabel : jsstring := [1062; 1080; 1082; 1083; 1099].

Definition statusBarTemplate (language : jsstring) (stats : Stats)
  : jsstring :=
  js "[" ++ language ++ js "] " ++ functionsLabel ++ js ": "
     ++ toString (functions stats) ++ js " | If: " ++ toString (ifs stats)
     ++ js " | " ++ loopsLabel ++ js ": " ++ toString (loops stats).

Definition notificationTemplate (stats : Stats) : jsstring :=
  js "Code Statistics: " ++ toString (functions stats) ++ js " functions, "
     ++ toString (ifs stats) ++ js " if statements, "
     ++ toString (loops stats) ++ js " loops".

Module Extension.

(** [analyzeCode], lines 3-54: the three counters start at 0 and the
    [switch] assigns them in the arm of the language; no arm, no
    assignment. *)
Definition analyzeCode (text language : jsstring) : Stats :=
  let '(functionCount, ifCount, loopCount) :=
    if isOneOf language ["javascript"; "typescript"] then
      (matchCount text re_function_keyword,
       matchCount text re_if_paren,
       matchCount text re_loop_paren)
    else if isOneOf language ["python"] then
      (matchCount text re_def,
       matchCount text re_if_colon,
       matchCount text re_loop_colon)
    else if isOneOf language ["java"; "csharp"; "cpp"; "c"] then
      (matchCount text re_function_signature,
       matchCount text re_if_paren,
       matchCount text re_loop_paren)
    else (O, O, O) in
  {| functions := functionCount; ifs := ifCount; loops := loopCount |}.

(** [showStatsNotification], lines 56-82. *)
Definition showStatsNotification (editor : option TextDocument)
  : list Effect :=
  match editor with
  | None => [showInformationMessage (js "No active code file found")]
  | Some document =>
      let text := getText document in
      let language := languageId document in
      let stats := analyzeCode text language in
      [callAnalyzeCode text language;
       showInformationMessage (notificationTemplate stats)]
  end.

(** [updateStatusBar], lines 100-119. *)
Definition updateStatusBar (editor : option TextDocument) : list Effect :=
  match editor with
  | None => [setStatusBarText noActiveFileText]
  | Some document =>
      let text := getText document in
      let language := languageId document in
      let stats := analyzeCode text language in
      [callAnalyzeCode text language;
       setStatusBarText (statusBarTemplate language stats)]
  end.

(** The handler of the command [refreshStats], lines 125-128. *)
Definition refreshStats (editor : option TextDocument) : list Effect :=
  updateStatusBar editor
    ++ [showInformationMessage (js "Code statistics refreshed!")].

End Extension.

Module Related.

(** [analyzeCode] of the second copy, lines 146-198: the last arm also
    has [case 'php']. *)
Definition analyzeCode (text language : jsstring) : Stats :=
  let '(functionCount, ifCount, loopCount) :=
    if isOneOf language ["javascript"; "typescript"] then
      (matchCount text re_function_keyword,
       matchCount text re_if_paren,
       matchCount text re_loop_paren)
    else if isOneOf language ["python"] then
      (matchCount text re_def,
       matchCount text re_if_colon,
       matchCount text re_loop_colon)
    else if isOneOf language ["java"; "csharp"; "cpp"; "c"; "php"] then
      (matchCount text re_function_signature,
       matchCount text re_if_paren,
       matchCount text re_loop_paren)
    else (O, O, O) in
  {| functions := functionCount; ifs := ifCount; loops := loopCount |}.

(** [updateStatusBar] of the second copy, lines 222-235. *)
Definition updateStatusBar (editor : option TextDocument) : list Effect :=
  match editor with
  | None => [setStatusBarText noActiveFileText]
  | Some document =>
      let text := getText document in
      let language := languageId document in
      let stats := analyzeCode text language in
      [callAnalyzeCode text language;
       setStatusBarText (statusBarTemplate language stats)]
  end.

End Related.

(** ** Reference recognizers *)

(** The patterns read as token grammars, without backtracking: a token is
    the longest run of its class.  They are the reading of the
    specification's wording that the analyzer is compared with. *)

(** One code unit of the class [p]. *)
Definition expect (p : codeunit -> bool) (x : MatchState)
  : option MatchState :=
  match remaining x with
  | ch :: rest => if p ch then Some (mkState (Some ch) rest) else None
  | [] => None
  end.

(** The longest run of code units of the class [p], possibly empty. *)
Fixpoint skipRun (p : codeunit -> bool) (last : option codeunit)
         (input : jsstring) : MatchState :=
  match input with
  | ch :: rest => if p ch then skipRun p (Some ch) rest else mkState last input
  | [] => mkState last input
  end.

Definition run (p : codeunit -> bool) (x : MatchState) : MatchState :=
  skipRun p (lastUnit x) (remaining x).

Definition andThen (a : option MatchState)
           (k : MatchState -> option MatchState) : option MatchState :=
  match a with Some y => k y | None => None end.

Notation "x <- a ;; k" := (andThen a (fun x => k))
  (at level 61, a at next level, right associativity).

(** An identifier-like token: one or more word characters, as many as
    there are. *)
Definition identifier (x : MatchState) : option MatchState :=
  y <- expect isWordChar x ;; Some (run isWordChar y).

(** Whitespace: one or more, as much as there is. *)
Definition whitespace (x : MatchState) : option MatchState :=
  y <- expect isWhiteSpace x ;; Some (run isWhiteSpace y).

(** The function pattern of the curly-brace family: an identifier that
    starts at a word boundary, whitespace, another identifier, an opening
    parenthesis, the parameter list up to the first closing parenthesis,
    and an opening brace; whitespace may precede the parenthesis and the
    brace. *)
Definition signatureAt (x : MatchState) : option MatchState :=
  if wordBefore x then None else
  x <- identifier x ;;
  x <- whitespace x ;;
  x <- identifier x ;;
  x <- expect (isChar "(") (run isWhiteSpace x) ;;
  x <- expect (isChar ")") (run (isNotChar ")") x) ;;
  expect (isChar "{") (run isWhiteSpace x).

(** The function pattern of javascript and typescript: the keyword
    [function], whitespace, an identifier and an opening parenthesis,
    which whitespace may precede. *)
Definition functionKeywordAt (x : MatchState) : option MatchState :=
  if wordBefore x then None else
  x <- expect (isChar "f") x ;;
  x <- expect (isChar "u") x ;;
  x <- expect (isChar "n") x ;;
  x <- expect (isChar "c") x ;;
  x <- expect (isChar "t") x ;;
  x <- expect (isChar "i") x ;;
  x <- expect (isChar "o") x ;;
  x <- expect (isChar "n") x ;;
  x <- whitespace x ;;
  x <- identifier x ;;
  expect (isChar "(") (run isWhiteSpace x).

(** The conditional pattern of the indentation family as the
    specification words it: the keyword [if], any characters other than a
    colon, and a colon. *)
Definition ifThenColonAt (x : MatchState) : option MatchState :=
  if wordBefore x then None else
  x <- expect (isChar "i") x ;;
  x <- expect (isChar "f") x ;;
  expect (isChar ":") (run (isNotChar ":") x).

(** The same with whitespace required after the keyword. *)
Definition ifSpaceColonAt (x : MatchState) : option MatchState :=
  if wordBefore x then None else
  x <- expect (isChar "i") x ;;
  x <- expect (isChar "f") x ;;
  x <- expect isWhiteSpace x ;;
  expect (isChar ":") (run (isNotChar ":") x).

(** ** Token patterns *)

(** The patterns whose terms are single characters and repeated classes:
    [One p] is one code unit of the class [p], [Many p] is [p*]. *)
Inductive token : Type :=
| One : (codeunit -> bool) -> token
| Many : (codeunit -> bool) -> token.

Definition tokenRegex (t : token) : regex :=
  match t with
  | One p => CharSet p
  | Many p => Star (CharSet p)
  end.

Definition tokensRegex (ts : list token) : regex :=
  Cat (List.map tokenRegex ts).

(** Reading the tokens from left to right, each [Many] taking the whole
    run. *)
Fixpoint recognize (ts : list token) (x : MatchState)
  : option MatchState :=
  match ts with
  | [] => Some x
  | One p :: ts' => andThen (expect p x) (recognize ts')
  | Many p :: ts' => recognize ts' (run p x)
  end.

Definition disjoint (p q : codeunit -> bool) : Prop :=
  forall ch, p ch = true -> q ch = false.

Definition included (p q : codeunit -> bool) : Prop :=
  forall ch, p ch = true -> q ch = true.

(** What follows a run of [p] cannot start on a code unit of [p]. *)
Fixpoint rejects (p : codeunit -> bool) (ts : list token) : Prop :=
  match ts with
  | [] => False
  | One q :: _ => disjoint p q
  | Many q :: ts' => disjoint p q /\ rejects p ts'
  end.

(** What follows a run of [p] is a run of a larger class. *)
Definition absorbs (p : codeunit -> bool) (ts : list token) : Prop :=
  match ts with
  | Many q :: _ => included p q
  | _ => False
  end.

Fixpoint unambiguous (ts : list token) : Prop :=
  match ts with
  | [] => True
  | One _ :: ts' => unambiguous ts'
  | Many p :: ts' => (rejects p ts' \/ absorbs p ts') /\ unambiguous ts'
  end.

(** The terms of [re_function_signature] after [\b]. *)
Definition signatureTokens : list token :=
  [One isWordChar; Many isWordChar; One isWhiteSpace; Many isWhiteSpace;
   One isWordChar; Many isWordChar; Many isWhiteSpace; One (isChar "(");
   Many (isNotChar ")"); One (isChar ")"); Many isWhiteSpace;
   One (isChar "{")].

(** The terms of [re_function_keyword] after [\b]. *)
Definition functionKeywordTokens : list token :=
  [One (isChar "f"); One (isChar "u"); One (isChar "n"); One (isChar "c");
   One (isChar "t"); One (isChar "i"); One (isChar "o"); One (isChar "n");
   One isWhiteSpace; Many isWhiteSpace; One isWordChar; Many isWordChar;
   Many isWhiteSpace; One (isChar "(")].

(** The terms of [re_if_colon] after [\b]. *)
Definition ifColonTokens : list token :=
  [One (isChar "i"); One (isChar "f"); One isWhiteSpace; Many isWhiteSpace;
   Many (isNotChar ":"); One (isChar ":")].

(** The number of non-overlapping matches of a recognizer in a text,
    scanned from left to right. *)
Definition countMatches (m : MatchState -> option MatchState)
           (text : jsstring) : nat :=
  length (scan m O None text).

(** The language tags the two copies know between them. *)
Definition knownTags : list string :=
  ["javascript"; "typescript"; "python"; "java"; "csharp"; "cpp"; "c";
   "php"].

Definition zeroStats : Stats := {| functions := 0; ifs := 0; loops := 0 |}.

(** The line feed of the literal scenarios. *)
Definition LF : string := String (ascii_of_nat 10) EmptyString.

(** ** Reference recognizers of the other patterns *)

(** The conditional pattern of the curly-brace languages: the keyword
    [if] and an opening parenthesis, which whitespace may precede. *)
Definition ifParenAt (x : MatchState) : option MatchState :=
  if wordBefore x then None else
  x <- expect (isChar "i") x ;;
  x <- expect (isChar "f") x ;;
  expect (isChar "(") (run isWhiteSpace x).

Definition keywordFor (x : MatchState) : option MatchState :=
  x <- expect (isChar "f") x ;;
  x <- expect (isChar "o") x ;;
  expect (isChar "r") x.

Definition keywordWhile (x : MatchState) : option MatchState :=
  x <- expect (isChar "w") x ;;
  x <- expect (isChar "h") x ;;
  x <- expect (isChar "i") x ;;
  x <- expect (isChar "l") x ;;
  expect (isChar "e") x.

(** The loop pattern of the curly-brace languages: [for] or else [while],
    and an opening parenthesis, which whitespace may precede. *)
Definition loopParenAt (x : MatchState) : option MatchState :=
  if wordBefore x then None else
  orElse
    (x <- keywordFor x ;; expect (isChar "(") (run isWhiteSpace x))
    (x <- keywordWhile x ;; expect (isChar "(") (run isWhiteSpace x)).

(** The function pattern of Python: the keyword [def], whitespace, an
    identifier and an opening parenthesis, which whitespace may precede. *)
Definition defAt (x : MatchState) : option MatchState :=
  if wordBefore x then None else
  x <- expect (isChar "d") x ;;
  x <- expect (isChar "e") x ;;
  x <- expect (isChar "f") x ;;
  x <- whitespace x ;;
  x <- identifier x ;;
  expect (isChar "(") (run isWhiteSpace x).

(** The loop pattern of Python: [for] or else [while], one whitespace
    character at least, any characters other than a colon, and a colon. *)
Definition loopColonAt (x : MatchState) : option MatchState :=
  if wordBefore x then None else
  orElse
    (x <- keywordFor x ;;
     x <- expect isWhiteSpace x ;;
     expect (isChar ":") (run (isNotChar ":") x))
    (x <- keywordWhile x ;;
     x <- expect isWhiteSpace x ;;
     expect (isChar ":") (run (isNotChar ":") x)).

Definition ifParenTokens : list token :=
  [One (isChar "i"); One (isChar "f"); Many isWhiteSpace; One (isChar "(")].

Definition forTokens : list token :=
  [One (isChar "f"); One (isChar "o"); One (isChar "r")].

Definition whileTokens : list token :=
  [One (isChar "w"); One (isChar "h"); One (isChar "i"); One (isChar "l");
   One (isChar "e")].

(** What follows the keyword in [re_loop_paren] and in [re_loop_colon]. *)
Definition parenTokens : list token :=
  [Many isWhiteSpace; One (isChar "(")].

Definition colonTokens : list token :=
  [One isWhiteSpace; Many isWhiteSpace; Many (isNotChar ":");
   One (isChar ":")].

Definition defTokens : list token :=
  [One (isChar "d"); One (isChar "e"); One (isChar "f"); One isWhiteSpace;
   Many isWhiteSpace; One isWordChar; Many isWordChar; Many isWhiteSpace;
   One (isChar "(")].

(** The tags of the curly-brace arms of the first copy. *)
Definition curlyTags : list string :=
  ["javascript"; "typescript"; "java"; "csharp"; "cpp"; "c"].

(** ** What a match consumes *)

(** [consumes r x w y]: the pattern [r] can take the code units [w] at the
    position [x] and end at the position [y]. *)
Inductive consumes : regex -> MatchState -> jsstring -> MatchState -> Prop :=
| consumes_Empty : forall x, consumes Empty x [] x
| consumes_CharSet : forall p last ch rest,
    p ch = true ->
    consumes (CharSet p) (mkState last (ch :: rest)) [ch]
             (mkState (Some ch) rest)
| consumes_WordBoundary : forall x,
    atWordBoundary x = true -> consumes WordBoundary x [] x
| consumes_Seq : forall r1 r2 x w1 y w2 z,
    consumes r1 x w1 y -> consumes r2 y w2 z ->
    consumes (Seq r1 r2) x (w1 ++ w2) z
| consumes_Alt_left : forall r1 r2 x w y,
    consumes r1 x w y -> consumes (Alt r1 r2) x w y
| consumes_Alt_right : forall r1 r2 x w y,
    consumes r2 x w y -> consumes (Alt r1 r2) x w y
| consumes_Star_stop : forall r x, consumes (Star r) x [] x
| consumes_Star_more : forall r x w1 y w2 z,
    consumes r x w1 y -> consumes (Star r) y w2 z ->
    consumes (Star r) x (w1 ++ w2) z.

(** The least number of code units in a match of a pattern. *)
Fixpoint minLength (r : regex) : nat :=
  match r with
  | Empty => 0
  | CharSet _ => 1
  | WordBoundary => 0
  | Seq r1 r2 => minLength r1 + minLength r2
  | Alt r1 r2 => Nat.min (minLength r1) (minLength r2)
  | Star _ => 0
  end.

(** Every match of the pattern has the code unit [c] in it. *)
Fixpoint requires (c : codeunit) (r : regex) : Prop :=
  match r with
  | Empty => False
  | CharSet p => forall ch, p ch = true -> ch = c
  | WordBoundary => False
  | Seq r1 r2 => requires c r1 \/ requires c r2
  | Alt r1 r2 => requires c r1 /\ requires c r2
  | Star _ => False
  end.

(** ** Texts that start with a match *)

(** The code unit before the position reached after the code units [w]. *)
Definition lastOf (last : option codeunit) (w : jsstring)
  : option codeunit :=
  fold_left (fun _ ch => Some ch) w last.

(** The text does not start on a code unit of the class [p]. *)
Definition startsOutside (p : codeunit -> bool) (rest : jsstring) : bool :=
  match rest with
  | [] => true
  | ch :: _ => negb (p ch)
  end.

Definition nonEmpty (w : jsstring) : bool :=
  match w with [] => false | _ :: _ => true end.

(** A function header on one or more lines: two identifiers [w1] and [w2]
    with the whitespace [ws1] between them, the parameters [params]
    between parentheses, and the opening brace; [ws2] and [ws3] are the
    whitespace, if any, before the parenthesis and before the brace. *)
Definition signatureHeader (w1 ws1 w2 ws2 params ws3 : jsstring)
  : jsstring :=
  w1 ++ ws1 ++ w2 ++ ws2 ++ js "(" ++ params ++ js ")" ++ ws3 ++ js "{".

Definition isSignatureHeader (w1 ws1 w2 ws2 params ws3 : jsstring) : bool :=
  nonEmpty w1 && forallb isWordChar w1
  && nonEmpty ws1 && forallb isWhiteSpace ws1
  && nonEmpty w2 && forallb isWordChar w2
  && forallb isWhiteSpace ws2
  && forallb (isNotChar ")") params
  && forallb isWhiteSpace ws3.

(** The head of a conditional of a curly-brace language: [if], the
    whitespace [ws], if any, and the opening parenthesis. *)
Definition ifHeader (ws : jsstring) : jsstring := js "if" ++ ws ++ js "(".

(** The head line of a conditional of Python: [if], the whitespace [ws],
    the condition [cond] and the colon. *)
Definition ifLine (ws cond : jsstring) : jsstring :=
  js "if" ++ ws ++ cond ++ js ":".

Definition isIfLine (ws cond : jsstring) : bool :=
  nonEmpty ws && forallb isWhiteSpace ws && forallb (isNotChar ":") cond.

(** The tags of the arm of the function signatures in the first copy. *)
Definition signatureTags : list string := ["java"; "csharp"; "cpp"; "c"].

(** ** The digits of a count *)

Definition isDigit (c : codeunit) : bool := between 48 57 c.

(** ** Activation and the triggers *)

(** What makes the editor call into the extension: the two events
    [activate] subscribes to and the two commands it registers. *)
Inductive Trigger : Type :=
| onDidChangeActiveTextEditor
| onDidChangeTextDocument
| showStatsCommand        (* function-counter-extension.showStats *)
| refreshStatsCommand.    (* function-counter-extension.refreshStats *)

Definition Trigger_eqb (a b : Trigger) : bool :=
  match a, b with
  | onDidChangeActiveTextEditor, onDidChangeActiveTextEditor => true
  | onDidChangeTextDocument, onDidChangeTextDocument => true
  | showStatsCommand, showStatsCommand => true
  | refreshStatsCommand, refreshStatsCommand => true
  | _, _ => false
  end.

(** A handler reads [vscode.window.activeTextEditor] when it runs. *)
Definition Handler := option TextDocument -> list Effect.

(** What [activate] does, in order. *)
Inductive Activation : Type :=
| consoleLog (message : jsstring)
| createStatusBarItem
| showStatusBarItem
| register (t : Trigger) (h : Handler)
| immediately (e : Effect).

(** The editor window as the extension leaves it.  The text of a new
    status-bar item is empty. *)
Record Window : Type := mkWindow {
  console : list jsstring;
  statusBarShown : bool;
  statusBarText : jsstring;
  informationMessages : list jsstring;
  analyzerCalls : nat;
  registered : list (Trigger * Handler)
}.

Definition emptyWindow : Window :=
  {| console := []; statusBarShown := false; statusBarText := [];
     informationMessages := []; analyzerCalls := O; registered := [] |}.

Definition perform (w : Window) (e : Effect) : Window :=
  match e with
  | callAnalyzeCode _ _ =>
      {| console := console w; statusBarShown := statusBarShown w;
         statusBarText := statusBarText w;
         informationMessages := informationMessages w;
         analyzerCalls := S (analyzerCalls w); registered := registered w |}
  | showInformationMessage message =>
      {| console := console w; statusBarShown := statusBarShown w;
         statusBarText := statusBarText w;
         informationMessages := informationMessages w ++ [message];
         analyzerCalls := analyzerCalls w; registered := registered w |}
  | setStatusBarText text =>
      {| console := console w; statusBarShown := statusBarShown w;
         statusBarText := text;
         informationMessages := informationMessages w;
         analyzerCalls := analyzerCalls w; registered := registered w |}
  end.

Definition performAll (w : Window) (es : list Effect) : Window :=
  fold_left perform es w.

Definition activateStep (w : Window) (a : Activation) : Window :=
  match a with
  | consoleLog message =>
      {| console := console w ++ [message];
         statusBarShown := statusBarShown w;
         statusBarText := statusBarText w;
         informationMessages := informationMessages w;
         analyzerCalls := analyzerCalls w; registered := registered w |}
  | createStatusBarItem =>
      {| console := console w; statusBarShown := false;
         statusBarText := [];
         informationMessages := informationMessages w;
         analyzerCalls := analyzerCalls w; registered := registered w |}
  | showStatusBarItem =>
      {| console := console w; statusBarShown := true;
         statusBarText := statusBarText w;
         informationMessages := informationMessages w;
         analyzerCalls := analyzerCalls w; registered := registered w |}
  | register t h =>
      {| console := console w; statusBarShown := statusBarShown w;
         statusBarText := statusBarText w;
         informationMessages := informationMessages w;
         analyzerCalls := analyzerCalls w;
         registered := registered w ++ [(t, h)] |}
  | immediately e => perform w e
  end.

(** [activate] of the first copy, lines 85-139, with the editor it finds. *)
Definition Extension_activate (editor : option TextDocument)
  : list Activation :=
  [consoleLog (js "Function Counter Extension activated!");
   createStatusBarItem;
   showStatusBarItem;
   register showStatsCommand Extension.showStatsNotification;
   register refreshStatsCommand Extension.refreshStats;
   register onDidChangeActiveTextEditor Extension.updateStatusBar;
   register onDidChangeTextDocument Extension.updateStatusBar]
    ++ List.map immediately (Extension.updateStatusBar editor).

(** [activate] of the second copy, lines 200-243: no command. *)
Definition Related_activate (editor : option TextDocument)
  : list Activation :=
  [consoleLog (js "Code Stats Analyzer activated!");
   createStatusBarItem;
   showStatusBarItem;
   register onDidChangeActiveTextEditor Related.updateStatusBar;
   register onDidChangeTextDocument Related.updateStatusBar]
    ++ List.map immediately (Related.updateStatusBar editor).

(** The editor fires a trigger: every handler registered for it runs, in
    the order of registration, on the editor of that moment. *)
Definition fire (w : Window) (occurrence : Trigger * option TextDocument)
  : Window :=
  let '(t, editor) := occurrence in
  fold_left
    (fun w' '(t', h) => if Trigger_eqb t t' then performAll w' (h editor)
                        else w')
    (registered w) w.

(** A session: activation, then triggers one after the other. *)
Definition session (activate : list Activation)
           (occurrences : list (Trigger * option TextDocument)) : Window :=
  fold_left fire occurrences (fold_left activateStep activate emptyWindow).

(** What the status bar shows for an editor. *)
Definition Extension_shown (editor : option TextDocument) : jsstring :=
  match editor with
  | None => noActiveFileText
  | Some document =>
      statusBarTemplate (languageId document)
        (Extension.analyzeCode (getText document) (languageId document))
  end.

Definition Related_shown (editor : option TextDocument) : jsstring :=
  match editor with
  | None => noActiveFileText
  | Some document =>
      statusBarTemplate (languageId document)
        (Related.analyzeCode (getText document) (languageId document))
  end.

(** The handlers of the first copy, as [activate] registers them. *)
Definition Extension_handlers : list (Trigger * Handler) :=
  [(showStatsCommand, Extension.showStatsNotification);
   (refreshStatsCommand, Extension.refreshStats);
   (onDidChangeActiveTextEditor, Extension.updateStatusBar);
   (onDidChangeTextDocument, Extension.updateStatusBar)].

Definition Related_handlers : list (Trigger * Handler) :=
  [(onDidChangeActiveTextEditor, Related.updateStatusBar);
   (onDidChangeTextDocument, Related.updateStatusBar)].

Definition isCommand (t : Trigger) : bool :=
  match t with
  | showStatsCommand | refreshStatsCommand => true
  | _ => false
  end.

Definition hasDocument (editor : option TextDocument) : bool :=
  match editor with Some _ => true | None => false end.

(** ** The analyzer on the heap *)

(** [analyzeCode] once more, with the mutable state its operations work
    on made explicit: every regular expression literal creates an object
    on the heap, and [match] reads and writes the [lastIndex] of the
    object it is given, through RegExpBuiltinExec, as ECMA-262 has it
    (22.2.6.8 and 22.2.7.2).  The arrays of matches and the record
    returned are values: nothing else refers to them. *)

(** The regular expression objects that exist, by address. *)
Definition Heap := list RegExp.

(** A computation on the heap; it fails on an address without object. *)
Definition M (A : Type) : Type := Heap -> option (A * Heap).

Definition ret {A : Type} (a : A) : M A := fun h => Some (a, h).

Definition bind {A B : Type} (m : M A) (k : A -> M B) : M B :=
  fun h => match m h with
           | Some (a, h') => k a h'
           | None => None
           end.

Notation "m >>= k" := (bind m k) (at level 50, left associativity).

Fixpoint store (h : Heap) (r : nat) (rx : RegExp) : Heap :=
  match h, r with
  | [], _ => []
  | _ :: h', O => rx :: h'
  | x :: h', S r' => x :: store h' r' rx
  end.

(** A literal is evaluated: a new object, with [lastIndex] 0. *)
Definition RegExpCreate (p : regex) : M nat :=
  fun h => Some (length h, h ++ [RegExpLiteral p]).

Definition Get (r : nat) : M RegExp :=
  fun h => match nth_error h r with
           | Some rx => Some (rx, h)
           | None => None
           end.

Definition SetLastIndex (r : nat) (i : nat) : M unit :=
  fun h => match nth_error h r with
           | Some rx => Some (tt, store h r (setLastIndex i rx))
           | None => None
           end.

(** The loop of RegExpBuiltinExec: the matcher is tried at [index], then
    one code unit further, up to the end of the string; the result is the
    index where it matched and the index where the match ends. *)
Fixpoint search (m : MatchState -> option MatchState) (index : nat)
         (last : option codeunit) (input : jsstring) : option (nat * nat) :=
  match m (mkState last input) with
  | Some y =>
      Some (index, (index + (length input - length (remaining y)))%nat)
  | None =>
      match input with
      | [] => None
      | ch :: rest => search m (S index) (Some ch) rest
      end
  end.

(** RegExpBuiltinExec for a global pattern: it starts at the [lastIndex]
    of the object, and leaves there the end of the match, or 0 when there
    is none. *)
Definition RegExpBuiltinExec (r : nat) (str : jsstring)
  : M (option (nat * nat)) :=
  Get r >>= fun R =>
  let i := lastIndex R in
  if (length str <? i)%nat
  then SetLastIndex r O >>= fun _ => ret None
  else
    match search (matcher (pattern R)) i (lastOf None (firstn i str))
                 (skipn i str) with
    | None => SetLastIndex r O >>= fun _ => ret None
    | Some (s, e) => SetLastIndex r e >>= fun _ => ret (Some (s, e))
    end.

(** The loop of RegExp.prototype[Symbol.match] for a global pattern: the
    matched substrings are collected until RegExpBuiltinExec fails; after
    an empty match [lastIndex] is advanced by one.  [fuel] bounds the
    number of rounds; running out of it is a failure. *)
Fixpoint matchLoop (fuel : nat) (r : nat) (str : jsstring)
         (A : list jsstring) : M (list jsstring) :=
  match fuel with
  | O => fun _ => None
  | S fuel' =>
      RegExpBuiltinExec r str >>= fun result =>
      match result with
      | None => ret A
      | Some (s, e) =>
          let matchStr := firstn (e - s) (skipn s str) in
          (match matchStr with
           | [] => Get r >>= fun R => SetLastIndex r (S (lastIndex R))
           | _ :: _ => ret tt
           end) >>= fun _ =>
          matchLoop fuel' r str (A ++ [matchStr])
      end
  end.

(** [str.match(rx)] for the global [rx] at the address [r]. *)
Definition RegExpMatch (r : nat) (str : jsstring)
  : M (option (list jsstring)) :=
  SetLastIndex r O >>= fun _ =>
  matchLoop (length str + 2) r str [] >>= fun A =>
  ret (match A with [] => None | _ :: _ => Some A end).

(** [(text.match(/re/g) || []).length] *)
Definition matchLength (text : jsstring) (re : regex) : M nat :=
  RegExpCreate re >>= fun r =>
  RegExpMatch r text >>= fun A =>
  ret (length (orEmptyArray A)).

Module OnHeap.

(** [analyzeCode], lines 3-54, literal by literal in the order of the
    source. *)
Definition analyzeCode (text language : jsstring) : M Stats :=
  if isOneOf language ["javascript"; "typescript"] then
    matchLength text re_function_keyword >>= fun functionCount =>
    matchLength text re_if_paren >>= fun ifCount =>
    matchLength text re_loop_paren >>= fun loopCount =>
    ret {| functions := functionCount; ifs := ifCount; loops := loopCount |}
  else if isOneOf language ["python"] then
    matchLength text re_def >>= fun functionCount =>
    matchLength text re_if_colon >>= fun ifCount =>
    matchLength text re_loop_colon >>= fun loopCount =>
    ret {| functions := functionCount; ifs := ifCount; loops := loopCount |}
  else if isOneOf language ["java"; "csharp"; "cpp"; "c"] then
    matchLength text re_function_signature >>= fun functionCount =>
    matchLength text re_if_paren >>= fun ifCount =>
    matchLength text re_loop_paren >>= fun loopCount =>
    ret {| functions := functionCount; ifs := ifCount; loops := loopCount |}
  else ret {| functions := 0; ifs := 0; loops := 0 |}.

End OnHeap.

(** * Properties *)

(** ** Tactics *)

(** A fact on two character classes, by arithmetic on the code unit. *)
Ltac class_fact :=
  unfold disjoint, included, isWordChar, isWhiteSpace, isNotChar, isChar,
    between, unit_of;
  repeat match goal with
    | |- context [N_of_ascii ?a] =>
        let v := eval vm_compute in (N_of_ascii a) in
        change (N_of_ascii a) with v
    end;
  let ch := fresh "ch" in
  let H := fresh "H" in
  intros ch H;
  repeat rewrite ?negb_true_iff, ?orb_true_iff, ?andb_true_iff, ?N.leb_le,
    ?N.eqb_eq, ?N.eqb_neq in H;
  repeat rewrite ?negb_true_iff, ?negb_false_iff, ?orb_false_iff,
    ?andb_false_iff, ?N.leb_gt, ?N.eqb_neq, ?N.eqb_eq;
  lia.

(** One more token of two recognizers that agree so far. *)
Ltac step_expect :=
  match goal with
  | |- context [expect ?p ?y] =>
      destruct (expect p y); cbn [andThen]; try reflexivity
  end.

(** Evaluate the tests of the [switch] on a language that is known. *)
Ltac switch_on_tag :=
  repeat match goal with
    | |- context [isOneOf ?l ?tags] =>
        let b := eval vm_compute in (isOneOf l tags) in
        change (isOneOf l tags) with b
    end;
  cbv iota.

(** One case for each tag of a list of tags. *)
Ltac each_tag H :=
  cbn [List.map In] in H;
  repeat (destruct H as [H|H]; [subst|]); [..|contradiction].

(** ** The matcher *)

(** A matcher sees its continuation only through its results. *)
Lemma RepeatMatcher_ext (m : Matcher) :
  (forall x c1 c2, (forall y, c1 y = c2 y) -> m x c1 = m x c2) ->
  forall fuel x c1 c2,
    (forall y, c1 y = c2 y) ->
    RepeatMatcher m fuel x c1 = RepeatMatcher m fuel x c2.
Proof.
  intros Hm. induction fuel as [|fuel IH]; intros x c1 c2 E;
    cbn [RepeatMatcher].
  - apply E.
  - rewrite (E x). f_equal. apply Hm. intros y.
    destruct (length (remaining y) <? length (remaining x))%nat;
      [apply IH, E|reflexivity].
Qed.

Lemma compile_ext (r : regex) :
  forall x c1 c2, (forall y, c1 y = c2 y) -> compile r x c1 = compile r x c2.
Proof.
  induction r as [|p| |r1 IH1 r2 IH2|r1 IH1 r2 IH2|r1 IH1];
    intros x c1 c2 E; cbn [compile].
  - apply E.
  - destruct (remaining x) as [|ch rest]; [reflexivity|].
    destruct (p ch); [apply E|reflexivity].
  - destruct (atWordBoundary x); [apply E|reflexivity].
  - apply IH1. intros y. apply IH2, E.
  - rewrite (IH1 x c1 c2 E), (IH2 x c1 c2 E). reflexivity.
  - apply RepeatMatcher_ext; assumption.
Qed.

(** Nothing matches in front of a continuation that always fails. *)
Lemma compile_fails (r : regex) :
  forall x, compile r x (fun _ => None) = None.
Proof.
  induction r as [|p| |r1 IH1 r2 IH2|r1 IH1 r2 IH2|r1 IH1]; intros x;
    cbn [compile].
  - reflexivity.
  - destruct (remaining x) as [|ch rest]; [reflexivity|].
    destruct (p ch); reflexivity.
  - destruct (atWordBoundary x); reflexivity.
  - rewrite (compile_ext r1 x _ (fun _ => None)); [apply IH1|].
    intros y. apply IH2.
  - rewrite IH1, IH2. reflexivity.
  - generalize (length (remaining x)). intros fuel. revert x.
    induction fuel as [|fuel IH]; intros x; cbn [RepeatMatcher];
      [reflexivity|].
    rewrite (compile_ext r1 x _ (fun _ => None)); [rewrite IH1; reflexivity|].
    intros y.
    destruct (length (remaining y) <? length (remaining x))%nat;
      [apply IH|reflexivity].
Qed.

(** The bound on the iterations is never reached: any number of
    iterations that covers the code units left gives the same result. *)
Lemma RepeatMatcher_fuel (r : regex) (c : Continuation) :
  forall fuel1 fuel2 x,
    (length (remaining x) <= fuel1)%nat ->
    (length (remaining x) <= fuel2)%nat ->
    RepeatMatcher (compile r) fuel1 x c = RepeatMatcher (compile r) fuel2 x c.
Proof.
  assert (Z : forall fuel x,
             length (remaining x) = O ->
             RepeatMatcher (compile r) fuel x c = c x).
  { intros [|fuel] x E; cbn [RepeatMatcher]; [reflexivity|].
    rewrite (compile_ext r x _ (fun _ => None)).
    - rewrite compile_fails. reflexivity.
    - intros y. rewrite E. reflexivity. }
  induction fuel1 as [|fuel1 IH]; intros fuel2 x H1 H2.
  - rewrite !Z by lia. reflexivity.
  - destruct fuel2 as [|fuel2]; [rewrite !Z by lia; reflexivity|].
    cbn [RepeatMatcher]. f_equal. apply compile_ext. intros y.
    destruct (length (remaining y) <? length (remaining x))%nat eqn:E;
      [|reflexivity].
    apply Nat.ltb_lt in E. apply IH; lia.
Qed.

(** The equation of RepeatMatcher in ECMA-262, without the bound. *)
Theorem compile_Star (r : regex) (x : MatchState) (c : Continuation) :
  compile (Star r) x c =
  orElse
    (compile r x (fun y =>
       if (length (remaining y) <? length (remaining x))%nat
       then compile (Star r) y c
       else None))
    (c x).
Proof.
  cbn [compile].
  destruct (length (remaining x)) as [|n] eqn:E.
  - cbn [RepeatMatcher]. rewrite (compile_ext r x _ (fun _ => None)).
    + rewrite compile_fails. reflexivity.
    + intros y. rewrite ?E. reflexivity.
  - cbn [RepeatMatcher]. f_equal. apply compile_ext. intros y. rewrite ?E.
    destruct (length (remaining y) <? S n)%nat eqn:L; [|reflexivity].
    apply Nat.ltb_lt in L. apply RepeatMatcher_fuel; lia.
Qed.

(** ** The matcher on runs of a character class *)

Lemma compile_CharSet (p : codeunit -> bool) (x : MatchState)
      (c : Continuation) :
  compile (CharSet p) x c = andThen (expect p x) c.
Proof.
  unfold expect, andThen; simpl.
  destruct (remaining x) as [|ch rest]; [reflexivity|].
  destruct (p ch); reflexivity.
Qed.

(** Greedy repetition of a class, unfolded once: it is structural in the
    input. *)
Lemma compile_Star_CharSet (p : codeunit -> bool) (last : option codeunit)
      (input : jsstring) (c : Continuation) :
  compile (Star (CharSet p)) (mkState last input) c =
  match input with
  | ch :: rest =>
      if p ch
      then orElse (compile (Star (CharSet p)) (mkState (Some ch) rest) c)
                  (c (mkState last input))
      else c (mkState last input)
  | [] => c (mkState last input)
  end.
Proof.
  destruct input as [|ch rest]; [reflexivity|].
  cbn [compile RepeatMatcher remaining length].
  destruct (p ch); [|reflexivity].
  assert (H : (length rest <? S (length rest))%nat = true)
    by (apply Nat.ltb_lt; lia).
  rewrite H. reflexivity.
Qed.

Lemma run_expect (p : codeunit -> bool) (x y : MatchState) :
  expect p x = Some y -> run p x = run p y.
Proof.
  unfold expect, run. destruct x as [last [|ch rest]]; cbn; [discriminate|].
  destruct (p ch) eqn:E; [|discriminate].
  intros [= <-]. reflexivity.
Qed.

Lemma run_no_expect (p : codeunit -> bool) (x : MatchState) :
  expect p x = None -> run p x = x.
Proof.
  unfold expect, run. destruct x as [last [|ch rest]]; cbn; [reflexivity|].
  destruct (p ch); [discriminate|reflexivity].
Qed.

(** When a failure of the continuation at the end of the run implies its
    failure inside the run, backtracking into the run does not help: the
    repetition takes the whole run. *)
Lemma compile_Star_run (p : codeunit -> bool) (c : Continuation) :
  (forall y z, expect p y = Some z -> c (run p y) = None -> c y = None) ->
  forall x, compile (Star (CharSet p)) x c = c (run p x).
Proof.
  intros Hc [last input]. revert last.
  induction input as [|ch rest IH]; intros last.
  - reflexivity.
  - rewrite compile_Star_CharSet.
    destruct (p ch) eqn:E.
    + rewrite IH.
      assert (Hx : expect p (mkState last (ch :: rest))
                   = Some (mkState (Some ch) rest))
        by (unfold expect; cbn; rewrite E; reflexivity).
      rewrite (run_expect _ _ _ Hx).
      destruct (c (run p (mkState (Some ch) rest))) eqn:Ec; [reflexivity|].
      cbn. apply (Hc _ _ Hx). rewrite (run_expect _ _ _ Hx). exact Ec.
    + unfold run; cbn. rewrite E. reflexivity.
Qed.

Lemma run_idempotent (p : codeunit -> bool) (x : MatchState) :
  expect p (run p x) = None.
Proof.
  destruct x as [last input]. unfold run; cbn. revert last.
  induction input as [|ch rest IH]; intros last; cbn; [reflexivity|].
  destruct (p ch) eqn:E; [apply IH|].
  unfold expect; cbn. rewrite E. reflexivity.
Qed.

(** A run of a class inside a run of a larger class. *)
Lemma run_included (p q : codeunit -> bool) (x : MatchState) :
  included p q -> run q (run p x) = run q x.
Proof.
  intros Hpq. destruct x as [last input]. unfold run; cbn. revert last.
  induction input as [|ch rest IH]; intros last; cbn; [reflexivity|].
  destruct (p ch) eqn:E.
  - rewrite (Hpq _ E). apply IH.
  - reflexivity.
Qed.

Lemma expect_disjoint (p q : codeunit -> bool) (y z : MatchState) :
  disjoint p q -> expect p y = Some z -> expect q y = None.
Proof.
  intros Hpq. unfold expect. destruct (remaining y) as [|ch rest];
    [discriminate|].
  destruct (p ch) eqn:E; [|discriminate].
  rewrite (Hpq _ E). reflexivity.
Qed.

(** ** Token patterns need no backtracking *)

Lemma rejects_recognize (p : codeunit -> bool) (ts : list token) :
  rejects p ts ->
  forall y z, expect p y = Some z -> recognize ts y = None.
Proof.
  induction ts as [|[q|q] ts IH]; cbn; intros H y z Hy.
  - contradiction.
  - rewrite (expect_disjoint _ _ _ _ H Hy). reflexivity.
  - destruct H as [Hpq H].
    rewrite (run_no_expect _ _ (expect_disjoint _ _ _ _ Hpq Hy)).
    exact (IH H y z Hy).
Qed.

Lemma absorbs_recognize (p : codeunit -> bool) (ts : list token) :
  absorbs p ts ->
  forall y, recognize ts (run p y) = recognize ts y.
Proof.
  destruct ts as [|[q|q] ts]; cbn; intros H y; try contradiction.
  rewrite (run_included _ _ _ H). reflexivity.
Qed.

Lemma compile_tokens (ts : list token) :
  unambiguous ts ->
  forall x c, compile (tokensRegex ts) x c = andThen (recognize ts x) c.
Proof.
  unfold tokensRegex, Cat.
  induction ts as [|[p|p] ts IH]; cbn [List.map fold_right]; intros U x c.
  - reflexivity.
  - change (compile (CharSet p) x
              (fun y => compile (fold_right Seq Empty (List.map tokenRegex ts))
                                y c)
            = andThen (recognize (One p :: ts) x) c).
    rewrite compile_CharSet. cbn [recognize].
    destruct (expect p x) as [y|]; cbn [andThen]; [|reflexivity].
    apply IH, U.
  - destruct U as [S U].
    change (compile (Star (CharSet p)) x
              (fun y => compile (fold_right Seq Empty (List.map tokenRegex ts))
                                y c)
            = andThen (recognize (Many p :: ts) x) c).
    rewrite compile_Star_run.
    + rewrite (IH U). reflexivity.
    + intros y z Hy. rewrite !(IH U).
      destruct S as [R|A].
      * rewrite (rejects_recognize _ _ R _ _ Hy). reflexivity.
      * rewrite (absorbs_recognize _ _ A). trivial.
Qed.

(** ** The character classes of the patterns *)

Lemma word_not_space : disjoint isWordChar isWhiteSpace.
Proof. class_fact. Qed.

Lemma space_not_word : disjoint isWhiteSpace isWordChar.
Proof. class_fact. Qed.

Lemma word_not_paren : disjoint isWordChar (isChar "(").
Proof. class_fact. Qed.

Lemma space_not_paren : disjoint isWhiteSpace (isChar "(").
Proof. class_fact. Qed.

Lemma space_not_brace : disjoint isWhiteSpace (isChar "{").
Proof. class_fact. Qed.

Lemma others_not_char (a : ascii) : disjoint (isNotChar a) (isChar a).
Proof.
  intros ch. unfold isNotChar. destruct (isChar a ch); [discriminate|trivial].
Qed.

Lemma space_not_colon : included isWhiteSpace (isNotChar ":").
Proof. class_fact. Qed.

Lemma letter_i_word : included (isChar "i") isWordChar.
Proof.
  intros ch H. apply N.eqb_eq in H. subst ch. reflexivity.
Qed.

Lemma letter_f_word : included (isChar "f") isWordChar.
Proof.
  intros ch H. apply N.eqb_eq in H. subst ch. reflexivity.
Qed.

Lemma signatureTokens_unambiguous : unambiguous signatureTokens.
Proof.
  cbn.
  repeat split;
    auto using word_not_space, space_not_word, word_not_paren,
      space_not_paren, space_not_brace, others_not_char.
Qed.

Lemma functionKeywordTokens_unambiguous : unambiguous functionKeywordTokens.
Proof.
  cbn.
  repeat split;
    auto using word_not_space, space_not_word, word_not_paren,
      space_not_paren.
Qed.

Lemma ifColonTokens_unambiguous : unambiguous ifColonTokens.
Proof.
  cbn. repeat split.
  - right. exact space_not_colon.
  - left. apply others_not_char.
Qed.

(** ** The patterns of the analyzer, read without backtracking *)

(** [\b] in front of a word character asks for no word character
    before. *)
Lemma boundary_then_word (x : MatchState) (k : Continuation)
      (p : codeunit -> bool) :
  included p isWordChar ->
  (if atWordBoundary x then andThen (expect p x) k else None)
  = (if wordBefore x then None else andThen (expect p x) k).
Proof.
  intros Hp. unfold atWordBoundary, wordAfter, expect.
  destruct (wordBefore x), (remaining x) as [|ch rest]; cbn; try reflexivity.
  - destruct (isWordChar ch) eqn:E; cbn; [reflexivity|].
    destruct (p ch) eqn:Ep; [|reflexivity].
    rewrite (Hp _ Ep) in E. discriminate.
  - destruct (isWordChar ch) eqn:E; cbn; [reflexivity|].
    destruct (p ch) eqn:Ep; [|reflexivity].
    rewrite (Hp _ Ep) in E. discriminate.
Qed.

Lemma andThen_Some (a : option MatchState) : andThen a Some = a.
Proof. destruct a; reflexivity. Qed.

(** The function pattern of the Java family takes whole tokens. *)
Lemma matcher_signature (x : MatchState) :
  matcher re_function_signature x = signatureAt x.
Proof.
  unfold matcher.
  change (compile re_function_signature x Some)
    with (if atWordBoundary x
          then compile (tokensRegex signatureTokens) x Some else None).
  rewrite (compile_tokens _ signatureTokens_unambiguous), andThen_Some.
  cbn [signatureTokens recognize].
  rewrite boundary_then_word by (intros ch H; exact H).
  unfold signatureAt, identifier, whitespace.
  destruct (wordBefore x); [reflexivity|].
  repeat step_expect.
Qed.

(** The function pattern of javascript and typescript takes whole
    tokens. *)
Lemma matcher_function_keyword (x : MatchState) :
  matcher re_function_keyword x = functionKeywordAt x.
Proof.
  unfold matcher.
  change (compile re_function_keyword x Some)
    with (if atWordBoundary x
          then compile (tokensRegex functionKeywordTokens) x Some else None).
  rewrite (compile_tokens _ functionKeywordTokens_unambiguous), andThen_Some.
  cbn [functionKeywordTokens recognize].
  rewrite boundary_then_word by exact letter_f_word.
  unfold functionKeywordAt, identifier, whitespace.
  destruct (wordBefore x); [reflexivity|].
  repeat step_expect.
Qed.

(** The conditional pattern of Python: the run of whitespace after the
    first one is part of the run of characters other than a colon. *)
Lemma matcher_if_colon (x : MatchState) :
  matcher re_if_colon x = ifSpaceColonAt x.
Proof.
  unfold matcher.
  change (compile re_if_colon x Some)
    with (if atWordBoundary x
          then compile (tokensRegex ifColonTokens) x Some else None).
  rewrite (compile_tokens _ ifColonTokens_unambiguous), andThen_Some.
  cbn [ifColonTokens recognize].
  rewrite boundary_then_word by exact letter_i_word.
  unfold ifSpaceColonAt.
  destruct (wordBefore x); [reflexivity|].
  do 3 step_expect.
  rewrite (run_included _ _ _ space_not_colon). apply andThen_Some.
Qed.

(** ** The other patterns, read without backtracking *)

Lemma unambiguous_app (ts1 ts2 : list token) :
  Forall (fun t => match t with One _ => True | Many _ => False end) ts1 ->
  unambiguous ts2 -> unambiguous (ts1 ++ ts2).
Proof.
  induction 1 as [|[p|p] ts1 H1 _ IH]; cbn; intros U;
    [exact U|apply IH, U|contradiction].
Qed.

Lemma parenTokens_unambiguous : unambiguous parenTokens.
Proof. cbn. auto using space_not_paren. Qed.

Lemma colonTokens_unambiguous : unambiguous colonTokens.
Proof.
  cbn. repeat split.
  - right. exact space_not_colon.
  - left. apply others_not_char.
Qed.

Lemma ifParenTokens_unambiguous : unambiguous ifParenTokens.
Proof. cbn. auto using space_not_paren. Qed.

Lemma defTokens_unambiguous : unambiguous defTokens.
Proof.
  cbn.
  repeat split;
    auto using word_not_space, space_not_word, word_not_paren,
      space_not_paren.
Qed.

Lemma letter_word (a : ascii) :
  isWordChar (unit_of a) = true -> included (isChar a) isWordChar.
Proof.
  intros W ch H. apply N.eqb_eq in H. subst ch. exact W.
Qed.

Lemma expect_no_word (p : codeunit -> bool) (x : MatchState) :
  included p isWordChar -> wordAfter x = false -> expect p x = None.
Proof.
  intros Hp. unfold wordAfter, expect.
  destruct (remaining x) as [|ch rest]; [reflexivity|].
  intros W. destruct (p ch) eqn:E; [|reflexivity].
  rewrite (Hp _ E) in W. discriminate.
Qed.

(** [\b] in front of a pattern that starts on a word character. *)
Lemma boundary_word_start (x : MatchState) (body : option MatchState) :
  (wordAfter x = false -> body = None) ->
  (if atWordBoundary x then body else None)
  = (if wordBefore x then None else body).
Proof.
  unfold atWordBoundary.
  destruct (wordBefore x), (wordAfter x); cbn; intros H;
    try reflexivity; rewrite H; reflexivity.
Qed.

Lemma matcher_if_paren (x : MatchState) :
  matcher re_if_paren x = ifParenAt x.
Proof.
  unfold matcher.
  change (compile re_if_paren x Some)
    with (if atWordBoundary x
          then compile (tokensRegex ifParenTokens) x Some else None).
  rewrite (compile_tokens _ ifParenTokens_unambiguous), andThen_Some.
  cbn [ifParenTokens recognize].
  rewrite boundary_then_word by exact letter_i_word.
  unfold ifParenAt.
  destruct (wordBefore x); [reflexivity|].
  repeat step_expect.
Qed.

Lemma matcher_def (x : MatchState) : matcher re_def x = defAt x.
Proof.
  unfold matcher.
  change (compile re_def x Some)
    with (if atWordBoundary x
          then compile (tokensRegex defTokens) x Some else None).
  rewrite (compile_tokens _ defTokens_unambiguous), andThen_Some.
  cbn [defTokens recognize].
  rewrite boundary_then_word by (apply letter_word; reflexivity).
  unfold defAt, identifier, whitespace.
  destruct (wordBefore x); [reflexivity|].
  repeat step_expect.
Qed.

Lemma matcher_loop_paren (x : MatchState) :
  matcher re_loop_paren x = loopParenAt x.
Proof.
  unfold matcher.
  change (compile re_loop_paren x Some)
    with (if atWordBoundary x
          then orElse
                 (compile (tokensRegex (forTokens ++ parenTokens)) x Some)
                 (compile (tokensRegex (whileTokens ++ parenTokens)) x Some)
          else None).
  rewrite !compile_tokens, !andThen_Some
    by (apply unambiguous_app;
        [repeat constructor|exact parenTokens_unambiguous]).
  rewrite boundary_word_start.
  - unfold loopParenAt, keywordFor, keywordWhile.
    destruct (wordBefore x); [reflexivity|].
    cbn [forTokens whileTokens parenTokens app recognize].
    f_equal; repeat step_expect.
  - intros W. cbn [forTokens whileTokens parenTokens app recognize].
    rewrite (expect_no_word _ _ (letter_word "f" eq_refl) W).
    rewrite (expect_no_word _ _ (letter_word "w" eq_refl) W). reflexivity.
Qed.

Lemma matcher_loop_colon (x : MatchState) :
  matcher re_loop_colon x = loopColonAt x.
Proof.
  unfold matcher.
  change (compile re_loop_colon x Some)
    with (if atWordBoundary x
          then orElse
                 (compile (tokensRegex (forTokens ++ colonTokens)) x Some)
                 (compile (tokensRegex (whileTokens ++ colonTokens)) x Some)
          else None).
  rewrite !compile_tokens, !andThen_Some
    by (apply unambiguous_app;
        [repeat constructor|exact colonTokens_unambiguous]).
  rewrite boundary_word_start.
  - unfold loopColonAt, keywordFor, keywordWhile.
    destruct (wordBefore x); [reflexivity|].
    cbn [forTokens whileTokens colonTokens app recognize].
    f_equal.
    + do 4 step_expect.
      rewrite (run_included _ _ _ space_not_colon). apply andThen_Some.
    + do 6 step_expect.
      rewrite (run_included _ _ _ space_not_colon). apply andThen_Some.
  - intros W. cbn [forTokens whileTokens colonTokens app recognize].
    rewrite (expect_no_word _ _ (letter_word "f" eq_refl) W).
    rewrite (expect_no_word _ _ (letter_word "w" eq_refl) W). reflexivity.
Qed.

(** ** Counting matches *)

(** ["a  b".match(/\s*/g)] is [["", "  ", "", ""]]: after an empty match
    the scan moves on by one code unit, and the end of the string is a
    position too. *)
Example scan_empty_matches :
  scan (matcher (Star space)) O None (js "a  b") = [[]; js "  "; []; []].
Proof. reflexivity. Qed.

(** ["ab1c1 x1".match(/\w*1/g)] is [["ab1c1", "x1"]]: the repetition gives
    back what the rest of the pattern needs. *)
Example scan_backtracking :
  scan (matcher (Cat [Star word; Chr "1"])) O None (js "ab1c1 x1")
  = [js "ab1c1"; js "x1"].
Proof. reflexivity. Qed.


(** The scan sees a matcher only through its results. *)
Lemma scan_ext (m1 m2 : MatchState -> option MatchState) :
  (forall x, m1 x = m2 x) ->
  forall input pending last,
    scan m1 pending last input = scan m2 pending last input.
Proof.
  intros E. induction input as [|ch rest IH]; intros [|pending] last;
    cbn [scan]; rewrite <- ?E; try reflexivity.
  - destruct (m1 (mkState last (ch :: rest))); rewrite IH; reflexivity.
  - apply IH.
Qed.

Lemma matchCount_countMatches (text : jsstring) (re : regex) :
  matchCount text re = countMatches (matcher re) text.
Proof.
  unfold matchCount, countMatches, String_match. cbn.
  destruct (scan (matcher re) 0 None text); reflexivity.
Qed.

Lemma matchCount_ext (re : regex) (m : MatchState -> option MatchState) :
  (forall x, matcher re x = m x) ->
  forall text, matchCount text re = countMatches m text.
Proof.
  intros E text. rewrite matchCount_countMatches. unfold countMatches.
  rewrite (scan_ext _ _ E). reflexivity.
Qed.

(** No pattern of the analyzer matches in the empty string. *)
Lemma matchCount_empty_text :
  Forall (fun re => matchCount [] re = O)
         [re_function_keyword; re_if_paren; re_loop_paren; re_def;
          re_if_colon; re_loop_colon; re_function_signature].
Proof. repeat constructor. Qed.

(** ** The [switch] on the language *)

Lemma jsstring_eqb_eq (a b : jsstring) : jsstring_eqb a b = true <-> a = b.
Proof.
  revert b. induction a as [|x a IH]; intros [|y b]; cbn;
    try (split; (discriminate || reflexivity)).
  rewrite andb_true_iff, N.eqb_eq, IH. split.
  - intros [-> ->]. reflexivity.
  - intros [= -> ->]. split; reflexivity.
Qed.

Lemma isOneOf_In (language : jsstring) (labels : list string) :
  isOneOf language labels = true <-> In language (List.map js labels).
Proof.
  unfold isOneOf. rewrite existsb_exists, in_map_iff. split.
  - intros [l [Hl E]]. apply jsstring_eqb_eq in E. eauto.
  - intros [l [E Hl]]. exists l. split; [exact Hl|].
    apply jsstring_eqb_eq. symmetry. exact E.
Qed.

Lemma isOneOf_not_In (language : jsstring) (labels : list string) :
  isOneOf language labels = false <-> ~ In language (List.map js labels).
Proof.
  rewrite <- isOneOf_In. destruct (isOneOf language labels); split;
    congruence.
Qed.

Lemma isOneOf_app (language : jsstring) (l1 l2 : list string) :
  isOneOf language (l1 ++ l2) = isOneOf language l1 || isOneOf language l2.
Proof. apply existsb_app. Qed.


(** ** The analyzer *)

(** C1, as amended.  For every text and every tag among java, csharp, cpp
    and c, the functions field of [analyzeCode] is the number of
    non-overlapping matches, from left to right, of: an identifier that
    starts at a word boundary, whitespace, another identifier, an opening
    parenthesis, the parameter list up to the first closing parenthesis,
    and an opening brace. *)
Theorem functions_count_signatures :
  forall text language,
    In language (List.map js ["java"; "csharp"; "cpp"; "c"]) ->
    functions (Extension.analyzeCode text language)
    = countMatches signatureAt text.
Proof.
  intros text language H.
  each_tag H; unfold Extension.analyzeCode; switch_on_tag;
    cbn [functions]; apply matchCount_ext, matcher_signature.
Qed.

Lemma functions_count_signatures_witness :
  In (js "cpp") (List.map js ["java"; "csharp"; "cpp"; "c"])
  /\ functions (Extension.analyzeCode
                  (js "int add(int a, int b) { return a+b; }") (js "cpp"))
     = countMatches signatureAt (js "int add(int a, int b) { return a+b; }").
Proof.
  split.
  - right; right; left; reflexivity.
  - apply functions_count_signatures. right; right; left; reflexivity.
Defined.

(** C1 as stated fails for javascript (and typescript): a function
    signature without the keyword [function] is a match of the pattern
    and is not counted. *)
Lemma functions_javascript_not_signatures :
  In (js "javascript")
     (List.map js ["javascript"; "typescript"; "java"; "csharp"; "cpp"; "c"])
  /\ functions (Extension.analyzeCode
                  (js "int add(int a, int b) { return a+b; }")
                  (js "javascript"))
     <> countMatches signatureAt (js "int add(int a, int b) { return a+b; }").
Proof.
  split.
  - left; reflexivity.
  - vm_compute. discriminate.
Qed.

(** X1.  For javascript and typescript the functions field is the number
    of non-overlapping matches of: the keyword [function] at a word
    boundary, whitespace, an identifier and an opening parenthesis, which
    whitespace may precede. *)
Lemma functions_count_keyword :
  forall text language,
    In language (List.map js ["javascript"; "typescript"]) ->
    functions (Extension.analyzeCode text language)
    = countMatches functionKeywordAt text.
Proof.
  intros text language H.
  each_tag H; unfold Extension.analyzeCode; switch_on_tag;
    cbn [functions]; apply matchCount_ext, matcher_function_keyword.
Qed.

(** C2.  For a tag outside javascript, typescript, python, java, csharp,
    cpp, c and php, [analyzeCode], in either copy, returns the three zero
    counts whatever the text; it has no other outcome. *)
Theorem unknown_tag_zero :
  forall text language,
    ~ In language (List.map js knownTags) ->
    Extension.analyzeCode text language = zeroStats
    /\ Related.analyzeCode text language = zeroStats.
Proof.
  intros text language H.
  assert (K : forall labels, incl labels knownTags ->
                             isOneOf language labels = false).
  { intros labels I. apply isOneOf_not_In. intros J. apply H.
    apply in_map_iff in J. destruct J as [l [E Hl]].
    apply in_map_iff. exists l. split; [exact E|apply I, Hl]. }
  unfold Extension.analyzeCode, Related.analyzeCode.
  rewrite !K; [split; reflexivity|..];
    intros l Hl; cbn in Hl |- *; intuition.
Qed.

Lemma unknown_tag_zero_witness :
  ~ In (js "ruby") (List.map js knownTags)
  /\ Extension.analyzeCode (js "some text") (js "ruby") = zeroStats
  /\ Related.analyzeCode (js "some text") (js "ruby") = zeroStats.
Proof.
  assert (H : ~ In (js "ruby") (List.map js knownTags)).
  { apply isOneOf_not_In. reflexivity. }
  split; [exact H|].
  exact (unknown_tag_zero (js "some text") (js "ruby") H).
Defined.

(** C3.  On the empty text [analyzeCode], in either copy, returns the
    three zero counts for every tag, known or not. *)
Theorem empty_text_zero :
  forall language,
    Extension.analyzeCode [] language = zeroStats
    /\ Related.analyzeCode [] language = zeroStats.
Proof.
  intros language.
  unfold Extension.analyzeCode, Related.analyzeCode.
  split;
    repeat match goal with
      | |- context [isOneOf language ?tags] =>
          destruct (isOneOf language tags)
      end; reflexivity.
Qed.

(** C4, as amended.  For the tag python the ifs field is the number of
    non-overlapping matches of: the keyword [if] at a word boundary, at
    least one whitespace character, any characters other than a colon, and
    a colon. *)
Theorem ifs_python_count :
  forall text,
    ifs (Extension.analyzeCode text (js "python"))
    = countMatches ifSpaceColonAt text.
Proof.
  intros text. unfold Extension.analyzeCode. switch_on_tag.
  cbn [ifs]. apply matchCount_ext, matcher_if_colon.
Qed.

(** C4 as stated fails: [if(x):] has no whitespace after the keyword and
    is not counted, while it is a match of [if], characters other than a
    colon, and a colon. *)
Lemma ifs_python_needs_whitespace :
  countMatches ifThenColonAt (js "if(x):") = 1%nat
  /\ ifs (Extension.analyzeCode (js "if(x):") (js "python"))
     <> countMatches ifThenColonAt (js "if(x):").
Proof. split; [reflexivity|vm_compute; discriminate]. Qed.

(** C5.  On [function test() { if (true) { } }] with the tag javascript
    [analyzeCode] returns one function, one if and no loop. *)
Theorem javascript_scenario :
  Extension.analyzeCode (js "function test() { if (true) { } }")
                        (js "javascript")
  = {| functions := 1; ifs := 1; loops := 0 |}.
Proof. vm_compute. reflexivity. Qed.

(** C6.  On [for (i=0;i<10;i++) { while(x) {} }] with the tag java
    [analyzeCode] returns no function, no if and two loops; in particular
    the function pattern of the Java family has no match in the text, so
    neither loop header is one. *)
Theorem java_scenario :
  Extension.analyzeCode (js "for (i=0;i<10;i++) { while(x) {} }") (js "java")
  = {| functions := 0; ifs := 0; loops := 2 |}
  /\ matchCount (js "for (i=0;i<10;i++) { while(x) {} }")
                re_function_signature = O.
Proof. split; vm_compute; reflexivity. Qed.

(** C7.  On the three lines [def foo():], [    if x:] and [        pass],
    joined by line feeds, with the tag python [analyzeCode] returns one
    function, one if and no loop. *)
Theorem python_scenario :
  Extension.analyzeCode
    (js ("def foo():" ++ LF ++ "    if x:" ++ LF ++ "        pass")%string)
    (js "python")
  = {| functions := 1; ifs := 1; loops := 0 |}.
Proof. vm_compute. reflexivity. Qed.

(** ** The shell without a document *)

(** With a document each handler calls the analyzer once, on the text and
    the language of the document, and then writes once. *)
Lemma with_document_one_analysis (document : TextDocument) :
  let text := getText document in
  let language := languageId document in
  Extension.showStatsNotification (Some document)
  = [callAnalyzeCode text language;
     showInformationMessage
       (notificationTemplate (Extension.analyzeCode text language))]
  /\ Extension.updateStatusBar (Some document)
     = [callAnalyzeCode text language;
        setStatusBarText
          (statusBarTemplate language (Extension.analyzeCode text language))]
  /\ Related.updateStatusBar (Some document)
     = [callAnalyzeCode text language;
        setStatusBarText
          (statusBarTemplate language (Related.analyzeCode text language))].
Proof. repeat split. Qed.

(** C8, as amended.  Without an active document no handler calls the
    analyzer: [showStatsNotification] shows the fixed information message
    [No active code file found], and [updateStatusBar], in either copy,
    shows no message and sets the status-bar text to its fixed Cyrillic
    placeholder. *)
Theorem no_document_no_analysis :
  Extension.showStatsNotification None
  = [showInformationMessage (js "No active code file found")]
  /\ Extension.updateStatusBar None = [setStatusBarText noActiveFileText]
  /\ Related.updateStatusBar None = [setStatusBarText noActiveFileText]
  /\ forall text language,
      ~ In (callAnalyzeCode text language)
           (Extension.showStatsNotification None
              ++ Extension.updateStatusBar None
              ++ Related.updateStatusBar None).
Proof.
  repeat split. intros text language H. cbn in H.
  repeat (destruct H as [H|H]; [discriminate|]). exact H.
Qed.

(** C8 as stated fails: neither handler surfaces the information message
    [no active file found]. *)
Lemma no_document_other_message :
  ~ In (showInformationMessage (js "no active file found"))
       (Extension.showStatsNotification None)
  /\ ~ In (showInformationMessage (js "no active file found"))
          (Extension.updateStatusBar None)
  /\ ~ In (showInformationMessage (js "no active file found"))
          (Related.updateStatusBar None).
Proof.
  repeat split; intros H; cbn in H;
    repeat (destruct H as [H|H]; [discriminate|]); exact H.
Qed.

(** ** The two copies *)

(** C10, as amended.  The two copies of [analyzeCode] return the same
    counts for every text and every language other than php.  For php
    and every text the first copy returns the three zero counts, and the
    second applies the patterns of the curly-brace languages, as both
    copies do for java: it counts function signatures, [if] before a
    parenthesis, and [for] or [while] before a parenthesis. *)
Theorem copies_agree_except_php :
  forall text language,
    (language <> js "php" ->
     Extension.analyzeCode text language = Related.analyzeCode text language)
    /\ Extension.analyzeCode text (js "php") = zeroStats
    /\ Related.analyzeCode text (js "php")
       = {| functions := countMatches signatureAt text;
            ifs := countMatches ifParenAt text;
            loops := countMatches loopParenAt text |}
    /\ Related.analyzeCode text (js "php")
       = Extension.analyzeCode text (js "java").
Proof.
  intros text language. split; [|split; [|split]].
  - intros H.
    unfold Extension.analyzeCode, Related.analyzeCode.
    change ["java"; "csharp"; "cpp"; "c"; "php"]
      with (["java"; "csharp"; "cpp"; "c"] ++ ["php"]).
    rewrite isOneOf_app.
    assert (E : isOneOf language ["php"] = false).
    { apply isOneOf_not_In. cbn. intros [K|[]]. apply H. symmetry. exact K. }
    rewrite E, orb_false_r. reflexivity.
  - unfold Extension.analyzeCode. switch_on_tag. reflexivity.
  - unfold Related.analyzeCode. switch_on_tag.
    rewrite (matchCount_ext _ _ matcher_signature),
      (matchCount_ext _ _ matcher_if_paren),
      (matchCount_ext _ _ matcher_loop_paren).
    reflexivity.
  - unfold Extension.analyzeCode, Related.analyzeCode. switch_on_tag.
    reflexivity.
Qed.

Lemma copies_agree_except_php_witness :
  js "java" <> js "php"
  /\ Extension.analyzeCode (js "void run() { }") (js "java")
     = Related.analyzeCode (js "void run() { }") (js "java").
Proof.
  assert (H : js "java" <> js "php") by (vm_compute; discriminate).
  split; [exact H|].
  exact (proj1 (copies_agree_except_php (js "void run() { }") (js "java")) H).
Defined.

(** C10 as stated fails for php: only the second copy counts there. *)
Lemma copies_differ_on_php :
  Extension.analyzeCode (js "function add($a, $b) { return $a; }") (js "php")
  <> Related.analyzeCode (js "function add($a, $b) { return $a; }")
                         (js "php").
Proof. vm_compute. discriminate. Qed.

(** * Further properties *)

(** ** The other counts of the analyzer *)

Lemma functions_count_keyword_witness :
  In (js "typescript") (List.map js ["javascript"; "typescript"])
  /\ functions (Extension.analyzeCode (js "function run (x) { }")
                                      (js "typescript"))
     = countMatches functionKeywordAt (js "function run (x) { }").
Proof.
  split.
  - right; left; reflexivity.
  - apply functions_count_keyword. right; left; reflexivity.
Defined.

(** X2.  For javascript, typescript, java, csharp, cpp and c the ifs
    field, in either copy, is the number of non-overlapping matches of:
    the keyword [if] at a word boundary and an opening parenthesis, with
    any whitespace between them. *)
Theorem ifs_count_paren :
  forall text language,
    In language (List.map js curlyTags) ->
    ifs (Extension.analyzeCode text language) = countMatches ifParenAt text
    /\ ifs (Related.analyzeCode text language) = countMatches ifParenAt text.
Proof.
  intros text language H. unfold curlyTags in H.
  each_tag H; unfold Extension.analyzeCode, Related.analyzeCode;
    switch_on_tag; cbn [ifs]; split; apply matchCount_ext, matcher_if_paren.
Qed.

Lemma ifs_count_paren_witness :
  In (js "csharp") (List.map js curlyTags)
  /\ ifs (Extension.analyzeCode (js "if (a) { } else if(b) { }") (js "csharp"))
     = countMatches ifParenAt (js "if (a) { } else if(b) { }")
  /\ ifs (Related.analyzeCode (js "if (a) { } else if(b) { }") (js "csharp"))
     = countMatches ifParenAt (js "if (a) { } else if(b) { }").
Proof.
  assert (H : In (js "csharp") (List.map js curlyTags))
    by (right; right; right; left; reflexivity).
  split; [exact H|].
  exact (ifs_count_paren (js "if (a) { } else if(b) { }") (js "csharp") H).
Defined.

(** X3.  For the same six tags the loops field, in either copy, is the number
    of non-overlapping matches of: [for] or [while] at a word boundary and
    an opening parenthesis, with any whitespace between them. *)
Theorem loops_count_paren :
  forall text language,
    In language (List.map js curlyTags) ->
    loops (Extension.analyzeCode text language)
    = countMatches loopParenAt text
    /\ loops (Related.analyzeCode text language)
       = countMatches loopParenAt text.
Proof.
  intros text language H. unfold curlyTags in H.
  each_tag H; unfold Extension.analyzeCode, Related.analyzeCode;
    switch_on_tag; cbn [loops]; split;
    apply matchCount_ext, matcher_loop_paren.
Qed.

Lemma loops_count_paren_witness :
  In (js "c") (List.map js curlyTags)
  /\ loops (Extension.analyzeCode (js "while (1) { for(;;) { } }") (js "c"))
     = countMatches loopParenAt (js "while (1) { for(;;) { } }")
  /\ loops (Related.analyzeCode (js "while (1) { for(;;) { } }") (js "c"))
     = countMatches loopParenAt (js "while (1) { for(;;) { } }").
Proof.
  assert (H : In (js "c") (List.map js curlyTags))
    by (do 5 right; left; reflexivity).
  split; [exact H|].
  exact (loops_count_paren (js "while (1) { for(;;) { } }") (js "c") H).
Defined.

(** X4.  For python the functions field, in either copy, is the number of
    non-overlapping matches of: the keyword [def] at a word boundary,
    whitespace, an identifier and an opening parenthesis, which whitespace
    may precede. *)
Theorem functions_python_count :
  forall text,
    functions (Extension.analyzeCode text (js "python"))
    = countMatches defAt text
    /\ functions (Related.analyzeCode text (js "python"))
       = countMatches defAt text.
Proof.
  intros text. unfold Extension.analyzeCode, Related.analyzeCode.
  switch_on_tag. cbn [functions].
  split; apply matchCount_ext, matcher_def.
Qed.

(** X5.  For python the loops field, in either copy, is the number of
    non-overlapping matches of: [for] or [while] at a word boundary, one
    whitespace character at least, any characters other than a colon, and
    a colon. *)
Theorem loops_python_count :
  forall text,
    loops (Extension.analyzeCode text (js "python"))
    = countMatches loopColonAt text
    /\ loops (Related.analyzeCode text (js "python"))
       = countMatches loopColonAt text.
Proof.
  intros text. unfold Extension.analyzeCode, Related.analyzeCode.
  switch_on_tag. cbn [loops].
  split; apply matchCount_ext, matcher_loop_colon.
Qed.

(** ** What a match consumes *)

(** The matcher succeeds only through a match of the pattern that the
    continuation accepts. *)
Lemma RepeatMatcher_sound (r : regex) :
  (forall x k z, compile r x k = Some z ->
                 exists w y, consumes r x w y /\ k y = Some z) ->
  forall fuel x k z,
    RepeatMatcher (compile r) fuel x k = Some z ->
    exists w y, consumes (Star r) x w y /\ k y = Some z.
Proof.
  intros Hr. induction fuel as [|fuel IH]; intros x k z;
    cbn [RepeatMatcher].
  - intros H. exists [], x. split; [constructor|exact H].
  - destruct (compile r x _) as [z'|] eqn:E; cbn [orElse].
    + intros [= ->]. apply Hr in E. destruct E as [w1 [y [C1 E]]].
      destruct (length (remaining y) <? length (remaining x))%nat;
        [|discriminate].
      apply IH in E. destruct E as [w2 [y2 [C2 E]]].
      exists (w1 ++ w2)%list, y2. split; [|exact E].
      eapply consumes_Star_more; eassumption.
    + intros H. exists [], x. split; [constructor|exact H].
Qed.

Lemma compile_sound (r : regex) :
  forall x k z,
    compile r x k = Some z ->
    exists w y, consumes r x w y /\ k y = Some z.
Proof.
  induction r as [|p| |r1 IH1 r2 IH2|r1 IH1 r2 IH2|r1 IH1];
    intros x k z; cbn [compile].
  - intros H. exists [], x. split; [constructor|exact H].
  - destruct x as [last [|ch rest]]; cbn [remaining]; [discriminate|].
    destruct (p ch) eqn:E; [|discriminate].
    intros H. exists [ch], (mkState (Some ch) rest).
    split; [constructor; exact E|exact H].
  - destruct (atWordBoundary x) eqn:E; [|discriminate].
    intros H. exists [], x. split; [constructor; exact E|exact H].
  - intros H. apply IH1 in H. destruct H as [w1 [y [C1 H]]].
    apply IH2 in H. destruct H as [w2 [y2 [C2 H]]].
    exists (w1 ++ w2)%list, y2. split; [|exact H].
    eapply consumes_Seq; eassumption.
  - destruct (compile r1 x k) as [z'|] eqn:E; cbn [orElse].
    + intros [= ->]. apply IH1 in E. destruct E as [w [y [C E]]].
      exists w, y. split; [apply consumes_Alt_left, C|exact E].
    + intros H. apply IH2 in H. destruct H as [w [y [C H]]].
      exists w, y. split; [apply consumes_Alt_right, C|exact H].
  - apply RepeatMatcher_sound, IH1.
Qed.

Lemma matcher_sound (r : regex) (x y : MatchState) :
  matcher r x = Some y -> exists w, consumes r x w y.
Proof.
  intros H. apply compile_sound in H. destruct H as [w [y' [C [= ->]]]].
  exists w. exact C.
Qed.

(** What is consumed is what is gone from the input. *)
Lemma consumes_remaining (r : regex) (x y : MatchState) (w : jsstring) :
  consumes r x w y -> remaining x = (w ++ remaining y)%list.
Proof.
  induction 1; cbn [remaining app]; try reflexivity.
  - rewrite IHconsumes1, IHconsumes2. apply app_assoc.
  - assumption.
  - assumption.
  - rewrite IHconsumes1, IHconsumes2. apply app_assoc.
Qed.

Lemma consumes_minLength (r : regex) (x y : MatchState) (w : jsstring) :
  consumes r x w y -> (minLength r <= length w)%nat.
Proof.
  induction 1; cbn [minLength length]; try lia.
  - rewrite length_app. lia.
Qed.

Lemma consumes_requires (c : codeunit) (r : regex) (x y : MatchState)
      (w : jsstring) :
  consumes r x w y -> requires c r -> In c w.
Proof.
  induction 1; cbn [requires]; try contradiction.
  - intros R. left. apply R. assumption.
  - intros [R|R]; apply in_or_app; [left|right]; auto.
  - intros [R _]. auto.
  - intros [_ R]. auto.
Qed.

Lemma matcher_minLength (r : regex) (x y : MatchState) :
  matcher r x = Some y ->
  (length (remaining y) + minLength r <= length (remaining x))%nat.
Proof.
  intros H. apply matcher_sound in H. destruct H as [w C].
  rewrite (consumes_remaining _ _ _ _ C), length_app.
  apply consumes_minLength in C. lia.
Qed.

Lemma matcher_requires (c : codeunit) (r : regex) (x y : MatchState) :
  requires c r -> matcher r x = Some y -> In c (remaining x).
Proof.
  intros R H. apply matcher_sound in H. destruct H as [w C].
  rewrite (consumes_remaining _ _ _ _ C). apply in_or_app. left.
  exact (consumes_requires _ _ _ _ _ C R).
Qed.

(** ** Bounds on the scan *)

(** Matches do not overlap: when every match has [k] code units or more,
    [k] times their number fits in the text. *)
Lemma scan_bound (m : MatchState -> option MatchState) (k : nat) :
  (1 <= k)%nat ->
  (forall x y, m x = Some y ->
               (length (remaining y) + k <= length (remaining x))%nat) ->
  forall input pending last,
    (k * length (scan m pending last input) <= length input - pending)%nat.
Proof.
  intros Hk Hm. induction input as [|ch rest IH]; intros [|pending] last;
    cbn [scan].
  - destruct (m (mkState last [])) as [y|] eqn:E; cbn [length]; [|lia].
    apply Hm in E. cbn [remaining length] in E. lia.
  - cbn [length]. lia.
  - destruct (m (mkState last (ch :: rest))) as [y|] eqn:E.
    + apply Hm in E. cbn [remaining] in E.
      set (consumed := (length (ch :: rest) - length (remaining y))%nat).
      assert (Hc : (k <= consumed <= length (ch :: rest))%nat)
        by (unfold consumed; lia).
      specialize (IH (pred consumed) (Some ch)).
      cbn [length] in *. nia.
    + specialize (IH O (Some ch)). cbn [length]. lia.
  - specialize (IH pending (Some ch)). cbn [length]. lia.
Qed.

Lemma matchCount_bound (text : jsstring) (re : regex) (k : nat) :
  (1 <=? k)%nat = true -> (k <=? minLength re)%nat = true ->
  (k * matchCount text re <= length text)%nat.
Proof.
  intros H1 H2. apply Nat.leb_le in H1, H2.
  rewrite matchCount_countMatches. unfold countMatches.
  pose proof (scan_bound (matcher re) k H1) as B.
  rewrite <- (Nat.sub_0_r (length text)). apply B.
  intros x y E. apply matcher_minLength in E. lia.
Qed.

(** A pattern that needs a code unit has no match in a text without it. *)
Lemma scan_without (m : MatchState -> option MatchState) (c : codeunit) :
  (forall x y, m x = Some y -> In c (remaining x)) ->
  forall input pending last,
    ~ In c input -> scan m pending last input = [].
Proof.
  intros Hm. induction input as [|ch rest IH]; intros [|pending] last N;
    cbn [scan].
  - destruct (m (mkState last [])) as [y|] eqn:E; [|reflexivity].
    apply Hm in E. contradiction.
  - reflexivity.
  - destruct (m (mkState last (ch :: rest))) as [y|] eqn:E.
    + apply Hm in E. contradiction.
    + apply IH. intros J. apply N. right. exact J.
  - apply IH. intros J. apply N. right. exact J.
Qed.

Lemma matchCount_without (text : jsstring) (re : regex) (c : codeunit) :
  requires c re -> ~ In c text -> matchCount text re = O.
Proof.
  intros R N. rewrite matchCount_countMatches. unfold countMatches.
  rewrite (scan_without (matcher re) c); [reflexivity| |exact N].
  intros x y. apply matcher_requires, R.
Qed.

(** ** Bounds on the counts *)

(** X6.  Whatever the language, in either copy: a counted function takes six
    code units of the text at least, a counted [if] three and a counted
    loop four, and the matches of one field do not overlap; so six times
    the functions, three times the ifs and four times the loops each fit
    in the length of the text. *)
Theorem counts_bounded_by_length :
  forall text language,
    (6 * functions (Extension.analyzeCode text language) <= length text
     /\ 3 * ifs (Extension.analyzeCode text language) <= length text
     /\ 4 * loops (Extension.analyzeCode text language) <= length text)%nat
    /\ (6 * functions (Related.analyzeCode text language) <= length text
        /\ 3 * ifs (Related.analyzeCode text language) <= length text
        /\ 4 * loops (Related.analyzeCode text language) <= length text)%nat.
Proof.
  intros text language.
  unfold Extension.analyzeCode, Related.analyzeCode.
  repeat match goal with
    | |- context [isOneOf language ?tags] => destruct (isOneOf language tags)
    end;
    cbn [functions ifs loops];
    repeat split; try (apply matchCount_bound; reflexivity); lia.
Qed.

(** ** Texts without a parenthesis or a colon *)

Ltac required_char :=
  unfold re_function_keyword, re_if_paren, re_loop_paren, re_def,
    re_if_colon, re_loop_colon, re_function_signature, Cat, Plus, Chr;
  cbn [fold_right requires];
  repeat first
    [ solve [left; intros ch H; apply N.eqb_eq in H; exact H]
    | right ].

Lemma patterns_require_paren :
  Forall (requires (unit_of "("))
         [re_function_keyword; re_if_paren; re_loop_paren; re_def;
          re_function_signature].
Proof. repeat (apply Forall_cons; [required_char|]). apply Forall_nil. Qed.

Lemma patterns_require_colon :
  Forall (requires (unit_of ":")) [re_if_colon; re_loop_colon].
Proof. repeat (apply Forall_cons; [required_char|]). apply Forall_nil. Qed.

Lemma matchCount_without_paren (text : jsstring) (re : regex) :
  In re [re_function_keyword; re_if_paren; re_loop_paren; re_def;
         re_function_signature] ->
  ~ In (unit_of "(") text -> matchCount text re = O.
Proof.
  intros I N. apply (matchCount_without text re (unit_of "(")); [|exact N].
  exact (proj1 (Forall_forall _ _) patterns_require_paren re I).
Qed.

Lemma matchCount_without_colon (text : jsstring) (re : regex) :
  In re [re_if_colon; re_loop_colon] ->
  ~ In (unit_of ":") text -> matchCount text re = O.
Proof.
  intros I N. apply (matchCount_without text re (unit_of ":")); [|exact N].
  exact (proj1 (Forall_forall _ _) patterns_require_colon re I).
Qed.

(** X7.  A text without an opening parenthesis has no function for any
    language, in either copy, and unless the language is python it has no
    if and no loop either. *)
Theorem no_parenthesis_no_count :
  forall text language,
    ~ In (unit_of "(") text ->
    functions (Extension.analyzeCode text language) = O
    /\ functions (Related.analyzeCode text language) = O
    /\ (language <> js "python" ->
        Extension.analyzeCode text language = zeroStats
        /\ Related.analyzeCode text language = zeroStats).
Proof.
  intros text language N.
  assert (P : forall re,
             In re [re_function_keyword; re_if_paren; re_loop_paren; re_def;
                    re_function_signature] ->
             matchCount text re = O)
    by (intros re I; apply matchCount_without_paren; assumption).
  assert (F : functions (Extension.analyzeCode text language) = O
              /\ functions (Related.analyzeCode text language) = O).
  { unfold Extension.analyzeCode, Related.analyzeCode.
    repeat match goal with
      | |- context [isOneOf language ?tags] =>
          destruct (isOneOf language tags)
      end;
      cbn [functions]; rewrite ?P by (cbn; tauto); split; reflexivity. }
  split; [apply F|]. split; [apply F|]. intros K.
  assert (Py : isOneOf language ["python"] = false).
  { apply isOneOf_not_In. cbn. intros [E|[]]. apply K. symmetry. exact E. }
  unfold Extension.analyzeCode, Related.analyzeCode. rewrite Py.
  repeat match goal with
    | |- context [isOneOf language ?tags] =>
        destruct (isOneOf language tags)
    end;
    rewrite ?P by (cbn; tauto); split; reflexivity.
Qed.

Lemma no_parenthesis_no_count_witness :
  ~ In (unit_of "(") (js "if x: for y in z: pass")
  /\ functions (Extension.analyzeCode (js "if x: for y in z: pass")
                                      (js "python")) = O.
Proof.
  assert (N : ~ In (unit_of "(") (js "if x: for y in z: pass")).
  { intros H. vm_compute in H.
    repeat (destruct H as [H|H]; [discriminate|]). exact H. }
  split; [exact N|].
  exact (proj1 (no_parenthesis_no_count (js "if x: for y in z: pass")
                                        (js "python") N)).
Defined.

(** X8.  For python a text without a colon has no if and no loop, in either
    copy. *)
Theorem python_no_colon_no_count :
  forall text,
    ~ In (unit_of ":") text ->
    (ifs (Extension.analyzeCode text (js "python")) = O
     /\ loops (Extension.analyzeCode text (js "python")) = O)
    /\ (ifs (Related.analyzeCode text (js "python")) = O
        /\ loops (Related.analyzeCode text (js "python")) = O).
Proof.
  intros text N.
  unfold Extension.analyzeCode, Related.analyzeCode. switch_on_tag.
  cbn [ifs loops].
  rewrite !matchCount_without_colon by (assumption || (cbn; tauto)).
  repeat split.
Qed.

Lemma python_no_colon_no_count_witness :
  ~ In (unit_of ":") (js "x = 1 if y else 2")
  /\ ifs (Extension.analyzeCode (js "x = 1 if y else 2") (js "python")) = O.
Proof.
  assert (N : ~ In (unit_of ":") (js "x = 1 if y else 2")).
  { intros H. vm_compute in H.
    repeat (destruct H as [H|H]; [discriminate|]). exact H. }
  split; [exact N|].
  exact (proj1 (proj1 (python_no_colon_no_count (js "x = 1 if y else 2") N))).
Defined.

(** ** Texts that start with a match *)

Lemma lastOf_app (last : option codeunit) (u v : jsstring) :
  lastOf last (u ++ v) = lastOf (lastOf last u) v.
Proof. apply fold_left_app. Qed.

(** After a match the scan goes on right behind it. *)
Lemma scan_pending (m : MatchState -> option MatchState) :
  forall w body last,
    scan m (length w) last (w ++ body) = scan m O (lastOf last w) body.
Proof.
  induction w as [|ch w IH]; intros body last; [reflexivity|].
  cbn [length app scan]. apply IH.
Qed.

Lemma scan_match (m : MatchState -> option MatchState)
      (last : option codeunit) (w body : jsstring) (y : MatchState) :
  nonEmpty w = true ->
  m (mkState last (w ++ body)) = Some y ->
  remaining y = body ->
  scan m O last (w ++ body) = w :: scan m O (lastOf last w) body.
Proof.
  destruct w as [|ch w]; [discriminate|]. intros _ E R.
  cbn [app scan]. cbn [app] in E. rewrite E, R.
  replace (length (ch :: w ++ body) - length body)%nat with (S (length w))
    by (cbn [length]; rewrite length_app; lia).
  cbn [pred firstn]. rewrite firstn_app, firstn_all, Nat.sub_diag.
  cbn [firstn]. rewrite app_nil_r, scan_pending. reflexivity.
Qed.

(** At the start of the scan only the first attempt looks at the code
    unit before the text. *)
Lemma scan_first (m : MatchState -> option MatchState)
      (l1 l2 : option codeunit) (input : jsstring) :
  m (mkState l1 input) = m (mkState l2 input) ->
  scan m O l1 input = scan m O l2 input.
Proof.
  intros E. destruct input as [|ch rest]; cbn [scan]; rewrite E;
    reflexivity.
Qed.

Lemma skipRun_app (p : codeunit -> bool) :
  forall w rest last,
    forallb p w = true -> startsOutside p rest = true ->
    skipRun p last (w ++ rest) = mkState (lastOf last w) rest.
Proof.
  induction w as [|ch w IH]; intros rest last A O; cbn [app].
  - destruct rest as [|c rest]; [reflexivity|].
    cbn in O |- *. apply negb_true_iff in O. rewrite O. reflexivity.
  - cbn [forallb] in A. apply andb_true_iff in A. destruct A as [A1 A2].
    cbn [skipRun]. rewrite A1. apply IH; assumption.
Qed.

Lemma run_app (p : codeunit -> bool) (w rest : jsstring)
      (last : option codeunit) :
  forallb p w = true -> startsOutside p rest = true ->
  run p (mkState last (w ++ rest)) = mkState (lastOf last w) rest.
Proof. apply skipRun_app. Qed.

Lemma startsOutside_app (p q : codeunit -> bool) (ws rest : jsstring) :
  disjoint q p -> forallb q ws = true -> startsOutside p rest = true ->
  startsOutside p (ws ++ rest) = true.
Proof.
  intros D A O. destruct ws as [|c ws]; [exact O|].
  cbn in A |- *. apply andb_true_iff in A. destruct A as [A _].
  rewrite (D _ A). reflexivity.
Qed.

Lemma expect_head (p : codeunit -> bool) (last : option codeunit)
      (ch : codeunit) (rest : jsstring) :
  p ch = true ->
  expect p (mkState last (ch :: rest)) = Some (mkState (Some ch) rest).
Proof. intros H. unfold expect. cbn [remaining]. rewrite H. reflexivity. Qed.

(** A function header is one match of the signature recognizer. *)
Lemma signatureAt_header
      (w1 ws1 w2 ws2 params ws3 body : jsstring) (last : option codeunit) :
  isSignatureHeader w1 ws1 w2 ws2 params ws3 = true ->
  wordBefore (mkState last (signatureHeader w1 ws1 w2 ws2 params ws3 ++ body))
  = false ->
  signatureAt
    (mkState last (signatureHeader w1 ws1 w2 ws2 params ws3 ++ body))
  = Some (mkState (Some (unit_of "{")) body).
Proof.
  unfold isSignatureHeader. rewrite !andb_true_iff.
  intros [[[[[[[[N1 A1] N2] A2] N3] A3] A4] A5] A6] W.
  unfold signatureAt. rewrite W.
  unfold signatureHeader. rewrite <- !app_assoc.
  destruct w1 as [|a w1]; [discriminate|].
  destruct ws1 as [|s ws1]; [discriminate|].
  destruct w2 as [|b w2]; [discriminate|].
  cbn [forallb] in A1, A2, A3. apply andb_true_iff in A1, A2, A3.
  destruct A1 as [Ha A1], A2 as [Hs A2], A3 as [Hb A3].
  change (js "(") with [unit_of "("]. change (js ")") with [unit_of ")"].
  change (js "{") with [unit_of "{"]. cbn [app].
  unfold identifier, whitespace.
  rewrite (expect_head _ _ _ _ Ha). cbn [andThen].
  rewrite run_app;
    [|exact A1|cbn; rewrite (space_not_word _ Hs); reflexivity].
  rewrite (expect_head _ _ _ _ Hs). cbn [andThen].
  rewrite run_app;
    [|exact A2|cbn; rewrite (word_not_space _ Hb); reflexivity].
  rewrite (expect_head _ _ _ _ Hb). cbn [andThen].
  rewrite run_app;
    [|exact A3
     |apply (startsOutside_app _ _ _ _ space_not_word A4); reflexivity].
  rewrite run_app; [|exact A4|reflexivity].
  rewrite expect_head by reflexivity. cbn [andThen].
  rewrite run_app; [|exact A5|reflexivity].
  rewrite expect_head by reflexivity. cbn [andThen].
  rewrite run_app; [|exact A6|reflexivity].
  apply expect_head. reflexivity.
Qed.


(** A recognizer that looks behind the position only for a word
    character, and a text that starts with a match ending on another
    character: the scan counts that match and then the rest of the text as
    if it stood alone. *)
Lemma countMatches_after_match (m : MatchState -> option MatchState)
      (w body : jsstring) (c : codeunit) :
  (forall l1 l2 input,
      wordBefore (mkState l1 input) = wordBefore (mkState l2 input) ->
      m (mkState l1 input) = m (mkState l2 input)) ->
  nonEmpty w = true ->
  m (mkState None (w ++ body)) = Some (mkState (Some c) body) ->
  lastOf None w = Some c ->
  isWordChar c = false ->
  countMatches m (w ++ body) = S (countMatches m body).
Proof.
  intros Hm N E L W. unfold countMatches.
  rewrite (scan_match m None w body _ N E eq_refl). cbn [length].
  f_equal. f_equal. apply scan_first, Hm. rewrite L.
  unfold wordBefore. cbn [lastUnit]. exact W.
Qed.

Lemma signatureAt_behind (l1 l2 : option codeunit) (input : jsstring) :
  wordBefore (mkState l1 input) = wordBefore (mkState l2 input) ->
  signatureAt (mkState l1 input) = signatureAt (mkState l2 input).
Proof. unfold signatureAt. intros ->. reflexivity. Qed.

Lemma ifParenAt_behind (l1 l2 : option codeunit) (input : jsstring) :
  wordBefore (mkState l1 input) = wordBefore (mkState l2 input) ->
  ifParenAt (mkState l1 input) = ifParenAt (mkState l2 input).
Proof. unfold ifParenAt. intros ->. reflexivity. Qed.

Lemma ifSpaceColonAt_behind (l1 l2 : option codeunit) (input : jsstring) :
  wordBefore (mkState l1 input) = wordBefore (mkState l2 input) ->
  ifSpaceColonAt (mkState l1 input) = ifSpaceColonAt (mkState l2 input).
Proof. unfold ifSpaceColonAt. intros ->. reflexivity. Qed.

(** X9.  For java, csharp, cpp and c, in either copy: a function header in
    front of any text adds exactly one to the functions of that text.  The
    header may run over several lines, and its two identifiers may be
    keywords, as in [else if (x) {]. *)
Theorem signature_header_adds_one :
  forall w1 ws1 w2 ws2 params ws3 body language,
    isSignatureHeader w1 ws1 w2 ws2 params ws3 = true ->
    In language (List.map js signatureTags) ->
    functions (Extension.analyzeCode
                 (signatureHeader w1 ws1 w2 ws2 params ws3 ++ body) language)
    = S (functions (Extension.analyzeCode body language))
    /\ functions (Related.analyzeCode
                    (signatureHeader w1 ws1 w2 ws2 params ws3 ++ body)
                    language)
       = S (functions (Related.analyzeCode body language)).
Proof.
  intros w1 ws1 w2 ws2 params ws3 body language Hh H.
  assert (C : countMatches signatureAt
                (signatureHeader w1 ws1 w2 ws2 params ws3 ++ body)
              = S (countMatches signatureAt body)).
  { apply (countMatches_after_match _ _ _ (unit_of "{")).
    - exact signatureAt_behind.
    - unfold isSignatureHeader in Hh. rewrite !andb_true_iff in Hh.
      destruct w1; [intuition discriminate|reflexivity].
    - apply signatureAt_header; [exact Hh|reflexivity].
    - unfold signatureHeader. rewrite !lastOf_app. reflexivity.
    - reflexivity. }
  unfold signatureTags in H.
  each_tag H; unfold Extension.analyzeCode, Related.analyzeCode;
    switch_on_tag; cbn [functions];
    rewrite !(matchCount_ext _ _ matcher_signature); split; exact C.
Qed.

Lemma signature_header_adds_one_witness :
  isSignatureHeader (js "else") (js " ") (js "if") (js " ") (js "x > 0")
                    (js " ") = true
  /\ In (js "java") (List.map js signatureTags)
  /\ functions (Extension.analyzeCode
                  (signatureHeader (js "else") (js " ") (js "if") (js " ")
                                   (js "x > 0") (js " ")
                     ++ js " return; }")
                  (js "java"))
     = S (functions (Extension.analyzeCode (js " return; }") (js "java"))).
Proof.
  assert (Hh : isSignatureHeader (js "else") (js " ") (js "if") (js " ")
                                 (js "x > 0") (js " ") = true)
    by reflexivity.
  assert (H : In (js "java") (List.map js signatureTags))
    by (left; reflexivity).
  split; [exact Hh|]. split; [exact H|].
  exact (proj1 (signature_header_adds_one
                  (js "else") (js " ") (js "if") (js " ") (js "x > 0")
                  (js " ") (js " return; }") (js "java") Hh H)).
Defined.


Lemma ifParenAt_header (ws body : jsstring) (last : option codeunit) :
  forallb isWhiteSpace ws = true ->
  wordBefore (mkState last (ifHeader ws ++ body)) = false ->
  ifParenAt (mkState last (ifHeader ws ++ body))
  = Some (mkState (Some (unit_of "(")) body).
Proof.
  intros A W. unfold ifParenAt. rewrite W.
  unfold ifHeader. rewrite <- !app_assoc.
  change (js "if") with [unit_of "i"; unit_of "f"].
  change (js "(") with [unit_of "("]. cbn [app].
  rewrite expect_head by reflexivity. cbn [andThen].
  rewrite expect_head by reflexivity. cbn [andThen].
  rewrite run_app; [|exact A|reflexivity].
  apply expect_head. reflexivity.
Qed.

(** X10.  For javascript, typescript, java, csharp, cpp and c, in either
    copy: [if], any whitespace and an opening parenthesis in front of any
    text add exactly one to the ifs of that text. *)
Theorem if_header_adds_one :
  forall ws body language,
    forallb isWhiteSpace ws = true ->
    In language (List.map js curlyTags) ->
    ifs (Extension.analyzeCode (ifHeader ws ++ body) language)
    = S (ifs (Extension.analyzeCode body language))
    /\ ifs (Related.analyzeCode (ifHeader ws ++ body) language)
       = S (ifs (Related.analyzeCode body language)).
Proof.
  intros ws body language A H.
  assert (C : countMatches ifParenAt (ifHeader ws ++ body)
              = S (countMatches ifParenAt body)).
  { apply (countMatches_after_match _ _ _ (unit_of "(")).
    - exact ifParenAt_behind.
    - reflexivity.
    - apply ifParenAt_header; [exact A|reflexivity].
    - unfold ifHeader. rewrite !lastOf_app. reflexivity.
    - reflexivity. }
  unfold curlyTags in H.
  each_tag H; unfold Extension.analyzeCode, Related.analyzeCode;
    switch_on_tag; cbn [ifs];
    rewrite !(matchCount_ext _ _ matcher_if_paren); split; exact C.
Qed.

Lemma if_header_adds_one_witness :
  forallb isWhiteSpace (js "  ") = true
  /\ In (js "typescript") (List.map js curlyTags)
  /\ ifs (Extension.analyzeCode (ifHeader (js "  ") ++ js "a) { if(b) { } }")
                                (js "typescript"))
     = S (ifs (Extension.analyzeCode (js "a) { if(b) { } }")
                                     (js "typescript"))).
Proof.
  assert (A : forallb isWhiteSpace (js "  ") = true) by reflexivity.
  assert (H : In (js "typescript") (List.map js curlyTags))
    by (right; left; reflexivity).
  split; [exact A|]. split; [exact H|].
  exact (proj1 (if_header_adds_one (js "  ") (js "a) { if(b) { } }")
                                   (js "typescript") A H)).
Defined.

Lemma forallb_included (p q : codeunit -> bool) (w : jsstring) :
  included p q -> forallb p w = true -> forallb q w = true.
Proof.
  intros I. induction w as [|ch w IH]; cbn [forallb]; [trivial|].
  rewrite !andb_true_iff. intros [H1 H2]. split; [apply I, H1|apply IH, H2].
Qed.

Lemma ifSpaceColonAt_line (ws cond body : jsstring)
      (last : option codeunit) :
  isIfLine ws cond = true ->
  wordBefore (mkState last (ifLine ws cond ++ body)) = false ->
  ifSpaceColonAt (mkState last (ifLine ws cond ++ body))
  = Some (mkState (Some (unit_of ":")) body).
Proof.
  unfold isIfLine. rewrite !andb_true_iff. intros [[N A] B] W.
  unfold ifSpaceColonAt. rewrite W.
  unfold ifLine. rewrite <- !app_assoc.
  destruct ws as [|s ws]; [discriminate|].
  cbn [forallb] in A. apply andb_true_iff in A. destruct A as [Hs A].
  change (js "if") with [unit_of "i"; unit_of "f"].
  change (js ":") with [unit_of ":"]. cbn [app].
  rewrite expect_head by reflexivity. cbn [andThen].
  rewrite expect_head by reflexivity. cbn [andThen].
  rewrite (expect_head _ _ _ _ Hs). cbn [andThen].
  rewrite app_assoc.
  rewrite run_app; [apply expect_head; reflexivity| |reflexivity].
  rewrite forallb_app, B, (forallb_included _ _ _ space_not_colon A).
  reflexivity.
Qed.

(** X11.  For python, in either copy: [if], one whitespace character or more, a
    condition without a colon and the colon, in front of any text, add
    exactly one to the ifs of that text, whatever the condition holds:
    another [if], line feeds. *)
Theorem if_line_adds_one :
  forall ws cond body,
    isIfLine ws cond = true ->
    ifs (Extension.analyzeCode (ifLine ws cond ++ body) (js "python"))
    = S (ifs (Extension.analyzeCode body (js "python")))
    /\ ifs (Related.analyzeCode (ifLine ws cond ++ body) (js "python"))
       = S (ifs (Related.analyzeCode body (js "python"))).
Proof.
  intros ws cond body Hl.
  assert (C : countMatches ifSpaceColonAt (ifLine ws cond ++ body)
              = S (countMatches ifSpaceColonAt body)).
  { apply (countMatches_after_match _ _ _ (unit_of ":")).
    - exact ifSpaceColonAt_behind.
    - reflexivity.
    - apply ifSpaceColonAt_line; [exact Hl|reflexivity].
    - unfold ifLine. rewrite !lastOf_app. reflexivity.
    - reflexivity. }
  unfold Extension.analyzeCode, Related.analyzeCode.
  switch_on_tag; cbn [ifs].
  rewrite !(matchCount_ext _ _ matcher_if_colon). split; exact C.
Qed.

Lemma if_line_adds_one_witness :
  isIfLine (js " ") (js "a if b else c") = true
  /\ ifs (Extension.analyzeCode
            (ifLine (js " ") (js "a if b else c") ++ js " pass")
            (js "python"))
     = S (ifs (Extension.analyzeCode (js " pass") (js "python"))).
Proof.
  assert (Hl : isIfLine (js " ") (js "a if b else c") = true)
    by reflexivity.
  split; [exact Hl|].
  exact (proj1 (if_line_adds_one (js " ") (js "a if b else c") (js " pass")
                                 Hl)).
Defined.

(** ** The texts shown *)

Lemma js_inj (s1 s2 : string) : js s1 = js s2 -> s1 = s2.
Proof.
  unfold js. intros H.
  rewrite <- (string_of_list_ascii_of_string s1),
    <- (string_of_list_ascii_of_string s2).
  f_equal. revert H.
  generalize (list_ascii_of_string s1), (list_ascii_of_string s2).
  induction l as [|a l IH]; intros [|b l']; cbn [List.map];
    try discriminate; [reflexivity|].
  intros [= Hab H]. f_equal; [|apply IH, H].
  rewrite <- (ascii_N_embedding a), <- (ascii_N_embedding b), Hab.
  reflexivity.
Qed.

Lemma to_uint_not_Nil (n : nat) : Nat.to_uint n <> Decimal.Nil.
Proof.
  rewrite <- (DecimalNat.Unsigned.of_to n) at 1.
  rewrite DecimalNat.Unsigned.to_of. apply DecimalFacts.unorm_nonnil.
Qed.

(** The decimal text of a count determines the count. *)
Lemma toString_inj (n m : nat) : toString n = toString m -> n = m.
Proof.
  unfold toString. intros H. apply js_inj in H.
  apply DecimalNat.Unsigned.to_uint_inj.
  apply (f_equal NilZero.uint_of_string) in H.
  rewrite !NilZero.usu in H by apply to_uint_not_Nil.
  injection H. trivial.
Qed.

Lemma string_of_uint_digits (d : Decimal.uint) :
  forallb isDigit (js (NilEmpty.string_of_uint d)) = true.
Proof.
  induction d; cbn [NilEmpty.string_of_uint]; [reflexivity|..];
    unfold js in *; cbn [list_ascii_of_string List.map forallb];
    rewrite IHd; reflexivity.
Qed.

Lemma toString_digits (n : nat) : forallb isDigit (toString n) = true.
Proof.
  unfold toString, NilZero.string_of_uint.
  destruct (Nat.to_uint n); (reflexivity || apply string_of_uint_digits).
Qed.

(** Digits followed by something else split in one way only. *)
Lemma digits_split :
  forall a a' r r',
    forallb isDigit a = true -> forallb isDigit a' = true ->
    startsOutside isDigit r = true -> startsOutside isDigit r' = true ->
    a ++ r = a' ++ r' -> a = a' /\ r = r'.
Proof.
  induction a as [|c a IH]; intros [|c' a'] r r' A A' O O';
    cbn [app forallb] in *.
  - auto.
  - intros ->. cbn in O. apply andb_true_iff in A'. destruct A' as [A' _].
    rewrite A' in O. discriminate.
  - intros <-. cbn in O'. apply andb_true_iff in A. destruct A as [A _].
    rewrite A in O'. discriminate.
  - apply andb_true_iff in A, A'. destruct A as [_ A], A' as [_ A'].
    intros [= -> E]. destruct (IH a' r r' A A' O O' E) as [-> ->].
    auto.
Qed.

Ltac split_digits E :=
  apply digits_split in E;
  [ let D := fresh "D" in
    destruct E as [D E]; apply toString_inj in D
  | apply toString_digits | apply toString_digits
  | reflexivity | reflexivity ].

(** X12.  The notification text determines the three counts: two results that
    differ are never shown as the same message. *)
Theorem notification_determines_counts :
  forall stats1 stats2,
    notificationTemplate stats1 = notificationTemplate stats2 ->
    stats1 = stats2.
Proof.
  intros [f1 i1 l1] [f2 i2 l2]. unfold notificationTemplate.
  cbn [functions ifs loops]. intros E.
  apply app_inv_head in E. split_digits E.
  apply app_inv_head in E. split_digits E.
  apply app_inv_head in E. apply app_inv_tail in E. apply toString_inj in E.
  subst. reflexivity.
Qed.


Lemma forallb_rev (p : codeunit -> bool) (w : jsstring) :
  forallb p (rev w) = forallb p w.
Proof.
  induction w as [|c w IH]; [reflexivity|].
  cbn [rev forallb]. rewrite forallb_app, IH. cbn [forallb].
  rewrite andb_true_r. apply andb_comm.
Qed.

Lemma rev_eq (a b : jsstring) : rev a = rev b -> a = b.
Proof.
  intros H. rewrite <- (rev_involutive a), <- (rev_involutive b), H.
  reflexivity.
Qed.

Ltac split_digits_rev E :=
  apply digits_split in E;
  [ let D := fresh "D" in
    destruct E as [D E]; apply rev_eq, toString_inj in D
  | rewrite forallb_rev; apply toString_digits
  | rewrite forallb_rev; apply toString_digits
  | reflexivity | reflexivity ].

(** X13.  The status-bar text determines the language and the three counts,
    whatever code units the language identifier is made of. *)
Theorem status_bar_determines_counts :
  forall language1 stats1 language2 stats2,
    statusBarTemplate language1 stats1 = statusBarTemplate language2 stats2 ->
    language1 = language2 /\ stats1 = stats2.
Proof.
  intros language1 [f1 i1 l1] language2 [f2 i2 l2].
  unfold statusBarTemplate. cbn [functions ifs loops]. intros E.
  apply (f_equal (@rev codeunit)) in E.
  rewrite !rev_app_distr, <- !app_assoc in E.
  split_digits_rev E.
  do 3 apply app_inv_head in E. split_digits_rev E.
  apply app_inv_head in E. split_digits_rev E.
  do 3 apply app_inv_head in E. apply app_inv_tail, rev_eq in E.
  subst. auto.
Qed.


(** ** Sessions *)

Lemma perform_registered (w : Window) (e : Effect) :
  registered (perform w e) = registered w
  /\ statusBarShown (perform w e) = statusBarShown w.
Proof. destruct e; split; reflexivity. Qed.

Lemma performAll_registered (es : list Effect) :
  forall w, registered (performAll w es) = registered w
            /\ statusBarShown (performAll w es) = statusBarShown w.
Proof.
  unfold performAll. induction es as [|e es IH]; intros w; cbn [fold_left].
  - split; reflexivity.
  - destruct (IH (perform w e)) as [R S], (perform_registered w e) as [R' S'].
    split; congruence.
Qed.

(** With the handlers of the first copy in place, a trigger runs its one
    handler. *)
Lemma fire_Extension (w : Window) (t : Trigger)
      (editor : option TextDocument) :
  registered w = Extension_handlers ->
  fire w (t, editor)
  = performAll w
      (match t with
       | showStatsCommand => Extension.showStatsNotification editor
       | refreshStatsCommand => Extension.refreshStats editor
       | _ => Extension.updateStatusBar editor
       end).
Proof.
  intros R. unfold fire. rewrite R.
  destruct t; reflexivity.
Qed.

Lemma fire_Related (w : Window) (t : Trigger)
      (editor : option TextDocument) :
  registered w = Related_handlers ->
  fire w (t, editor)
  = if isCommand t then w else performAll w (Related.updateStatusBar editor).
Proof.
  intros R. unfold fire. rewrite R.
  destruct t; reflexivity.
Qed.

(** Activation leaves the handlers registered and the item shown, and no
    trigger changes that. *)
Lemma session_Extension_registered (editor : option TextDocument)
      (occurrences : list (Trigger * option TextDocument)) :
  registered (session (Extension_activate editor) occurrences)
  = Extension_handlers
  /\ statusBarShown (session (Extension_activate editor) occurrences) = true.
Proof.
  unfold session.
  assert (I : registered
                (fold_left activateStep (Extension_activate editor)
                           emptyWindow) = Extension_handlers
              /\ statusBarShown
                   (fold_left activateStep (Extension_activate editor)
                              emptyWindow) = true)
    by (destruct editor; split; reflexivity).
  revert I. generalize (fold_left activateStep (Extension_activate editor)
                                  emptyWindow).
  induction occurrences as [|[t e] occurrences IH]; intros w [R S];
    cbn [fold_left]; [split; assumption|].
  apply IH. rewrite (fire_Extension _ _ _ R).
  destruct (performAll_registered
              (match t with
               | showStatsCommand => Extension.showStatsNotification e
               | refreshStatsCommand => Extension.refreshStats e
               | _ => Extension.updateStatusBar e
               end) w) as [R' S'].
  split; congruence.
Qed.

Lemma session_snoc (activate : list Activation)
      (occurrences : list (Trigger * option TextDocument))
      (o : Trigger * option TextDocument) :
  session activate (occurrences ++ [o]) = fire (session activate occurrences) o.
Proof. unfold session. rewrite fold_left_app. reflexivity. Qed.

(** X14.  In the first copy the status bar follows the editor: right after
    activation it shows the statistics of the document found (or the
    placeholder), and after any session every trigger but the command
    [showStats] makes it show those of the document of that moment;
    [showStats] leaves it as it is. *)
Theorem status_bar_follows_editor :
  forall editor0 occurrences,
    statusBarText (session (Extension_activate editor0) [])
    = Extension_shown editor0
    /\ forall t editor,
        statusBarText
          (session (Extension_activate editor0) (occurrences ++ [(t, editor)]))
        = if Trigger_eqb t showStatsCommand
          then statusBarText
                 (session (Extension_activate editor0) occurrences)
          else Extension_shown editor.
Proof.
  intros editor0 occurrences. split.
  - destruct editor0; reflexivity.
  - intros t editor. rewrite session_snoc.
    destruct (session_Extension_registered editor0 occurrences) as [R _].
    rewrite (fire_Extension _ _ _ R).
    destruct t, editor; reflexivity.
Qed.

(** X15.  In the first copy, over any session: an information message is shown
    once for every command run and never for an event, and the analyzer is
    called once for every time, activation included, that there is an
    active document, and never otherwise. *)
Theorem session_messages_and_calls :
  forall editor0 occurrences,
    length (informationMessages
              (session (Extension_activate editor0) occurrences))
    = length (filter (fun o => isCommand (fst o)) occurrences)
    /\ analyzerCalls (session (Extension_activate editor0) occurrences)
       = length (filter hasDocument (editor0 :: List.map snd occurrences)).
Proof.
  intros editor0 occurrences.
  induction occurrences as [|[t e] occurrences IH] using rev_ind.
  - destruct editor0; split; reflexivity.
  - rewrite session_snoc.
    destruct (session_Extension_registered editor0 occurrences) as [R _].
    rewrite (fire_Extension _ _ _ R).
    rewrite filter_app, length_app, map_app.
    change (editor0 :: List.map snd occurrences ++ List.map snd [(t, e)])
      with ((editor0 :: List.map snd occurrences) ++ [e]).
    rewrite filter_app, length_app.
    destruct IH as [IH1 IH2]. rewrite <- IH1, <- IH2.
    generalize (session (Extension_activate editor0) occurrences).
    intros w.
    destruct t, e; cbn; rewrite ?length_app; cbn; split; lia.
Qed.


Lemma session_Related_registered (editor : option TextDocument)
      (occurrences : list (Trigger * option TextDocument)) :
  registered (session (Related_activate editor) occurrences)
  = Related_handlers
  /\ informationMessages (session (Related_activate editor) occurrences) = [].
Proof.
  unfold session.
  assert (I : registered
                (fold_left activateStep (Related_activate editor)
                           emptyWindow) = Related_handlers
              /\ informationMessages
                   (fold_left activateStep (Related_activate editor)
                              emptyWindow) = [])
    by (destruct editor; split; reflexivity).
  revert I. generalize (fold_left activateStep (Related_activate editor)
                                  emptyWindow).
  induction occurrences as [|[t e] occurrences IH]; intros w [R M];
    cbn [fold_left]; [split; assumption|].
  apply IH. rewrite (fire_Related _ _ _ R).
  destruct (isCommand t); [split; assumption|].
  destruct e; cbn; split; assumption.
Qed.

(** X16.  In the second copy, which registers no command: over any session no
    information message is ever shown, and each of the two events makes
    the status bar show the statistics of the document of that moment, or
    the placeholder. *)
Theorem second_copy_only_status_bar :
  forall editor0 occurrences,
    informationMessages (session (Related_activate editor0) occurrences) = []
    /\ forall t editor,
        isCommand t = false ->
        statusBarText
          (session (Related_activate editor0) (occurrences ++ [(t, editor)]))
        = Related_shown editor.
Proof.
  intros editor0 occurrences. split.
  - apply session_Related_registered.
  - intros t editor C. rewrite session_snoc.
    destruct (session_Related_registered editor0 occurrences) as [R _].
    rewrite (fire_Related _ _ _ R), C.
    destruct editor; reflexivity.
Qed.


Lemma notification_determines_counts_witness :
  notificationTemplate {| functions := 3; ifs := 2; loops := 1 |}
  = notificationTemplate {| functions := 3; ifs := 2; loops := 1 |}
  /\ {| functions := 3; ifs := 2; loops := 1 |}
     = {| functions := 3; ifs := 2; loops := 1 |}.
Proof.
  split; [reflexivity|].
  exact (notification_determines_counts
           {| functions := 3; ifs := 2; loops := 1 |}
           {| functions := 3; ifs := 2; loops := 1 |} eq_refl).
Defined.

Lemma status_bar_determines_counts_witness :
  statusBarTemplate (js "c") {| functions := 10; ifs := 0; loops := 7 |}
  = statusBarTemplate (js "c") {| functions := 10; ifs := 0; loops := 7 |}
  /\ js "c" = js "c"
  /\ {| functions := 10; ifs := 0; loops := 7 |}
     = {| functions := 10; ifs := 0; loops := 7 |}.
Proof.
  split; [reflexivity|].
  exact (status_bar_determines_counts
           (js "c") {| functions := 10; ifs := 0; loops := 7 |}
           (js "c") {| functions := 10; ifs := 0; loops := 7 |} eq_refl).
Defined.

(** ** The analyzer on the heap *)

Lemma nth_error_store (h : Heap) (r : nat) (rx x : RegExp) :
  nth_error h r = Some rx -> nth_error (store h r x) r = Some x.
Proof.
  revert r. induction h as [|y h IH]; intros [|r]; cbn; try discriminate.
  - reflexivity.
  - apply IH.
Qed.

Lemma store_store (h : Heap) (r : nat) (x y : RegExp) :
  store (store h r x) r y = store h r y.
Proof.
  revert r. induction h as [|z h IH]; intros [|r]; cbn; try reflexivity.
  rewrite IH. reflexivity.
Qed.

Lemma store_new (h : Heap) (x y : RegExp) :
  store (h ++ [x]) (length h) y = h ++ [y].
Proof.
  induction h as [|z h IH]; cbn; [reflexivity|]. rewrite IH. reflexivity.
Qed.

Lemma Get_at (h : Heap) (r : nat) (rx : RegExp) :
  nth_error h r = Some rx -> Get r h = Some (rx, h).
Proof. unfold Get. intros ->. reflexivity. Qed.

Lemma SetLastIndex_at (h : Heap) (r i : nat) (rx : RegExp) :
  nth_error h r = Some rx ->
  SetLastIndex r i h = Some (tt, store h r (setLastIndex i rx)).
Proof. unfold SetLastIndex. intros ->. reflexivity. Qed.

(** The scan skips what the previous match covers. *)
Lemma scan_skip (m : MatchState -> option MatchState) (k : nat) :
  forall w body last,
    scan m (length w + k) last (w ++ body) = scan m k (lastOf last w) body.
Proof.
  induction w as [|ch w IH]; intros body last; [reflexivity|].
  cbn [length app scan Nat.add]. apply IH.
Qed.

Lemma scan_beyond (m : MatchState -> option MatchState) :
  forall input pending last,
    (length input < pending)%nat -> scan m pending last input = [].
Proof.
  induction input as [|ch rest IH]; intros [|pending] last H;
    cbn [length] in H; try lia; cbn [scan]; [reflexivity|].
  apply IH. lia.
Qed.

(** One round of RegExpBuiltinExec is one step of the scan. *)
Lemma scan_search (m : MatchState -> option MatchState) :
  forall input index last,
    match search m index last input with
    | None => scan m O last input = []
    | Some (s, e) =>
        (index <= s <= e)%nat /\ (e <= index + length input)%nat
        /\ scan m O last input
           = firstn (e - s) (skipn (s - index) input)
               :: scan m ((if (e =? s)%nat then S e else e) - index) last
                    input
    end.
Proof.
  induction input as [|ch rest IH]; intros index last; cbn [search scan].
  - destruct (m (mkState last [])) as [y|]; [|reflexivity].
    cbn [length Nat.sub]. rewrite Nat.add_0_r, Nat.eqb_refl.
    replace (S index - index)%nat with 1%nat by lia.
    repeat split; try lia. rewrite Nat.sub_diag. reflexivity.
  - destruct (m (mkState last (ch :: rest))) as [y|].
    + set (c := (length (ch :: rest) - length (remaining y))%nat).
      assert (Hc : (c <= length (ch :: rest))%nat) by (unfold c; lia).
      repeat split; try lia.
      replace (index + c - index)%nat with c by lia.
      rewrite Nat.sub_diag. cbn [skipn]. f_equal.
      destruct c as [|c].
      * rewrite Nat.add_0_r, Nat.eqb_refl.
        replace (S index - index)%nat with 1%nat by lia. reflexivity.
      * replace (index + S c =? index)%nat with false
          by (symmetry; apply Nat.eqb_neq; lia).
        replace (index + S c - index)%nat with (S c) by lia. reflexivity.
    + specialize (IH (S index) (Some ch)).
      destruct (search m (S index) (Some ch) rest) as [[s e]|];
        [|exact IH].
      destruct IH as [H1 [H2 H3]]. cbn [length].
      repeat split; try lia.
      rewrite H3.
      replace (s - index)%nat with (S (s - S index)) by lia.
      cbn [skipn]. f_equal.
      replace ((if (e =? s)%nat then S e else e) - index)%nat
        with (S ((if (e =? s)%nat then S e else e) - S index))
        by (destruct (e =? s)%nat; lia).
      reflexivity.
Qed.

(** The same at an index of the string. *)
Lemma scan_search_at (m : MatchState -> option MatchState)
      (str : jsstring) (i : nat) :
  (i <= length str)%nat ->
  match search m i (lastOf None (firstn i str)) (skipn i str) with
  | None => scan m i None str = []
  | Some (s, e) =>
      (i <= s <= e)%nat /\ (e <= length str)%nat
      /\ scan m i None str
         = firstn (e - s) (skipn s str)
             :: scan m (if (e =? s)%nat then S e else e) None str
  end.
Proof.
  intros Hi.
  assert (K : forall k, scan m (i + k) None str
                        = scan m k (lastOf None (firstn i str))
                               (skipn i str)).
  { intros k. rewrite <- (firstn_skipn i str) at 1.
    rewrite <- (scan_skip m k (firstn i str)).
    rewrite length_firstn, Nat.min_l by exact Hi. reflexivity. }
  pose proof (scan_search m (skipn i str) i (lastOf None (firstn i str)))
    as H.
  destruct (search m i (lastOf None (firstn i str)) (skipn i str))
    as [[s e]|].
  - destruct H as [H1 [H2 H3]]. rewrite length_skipn in H2.
    repeat split; try lia.
    rewrite <- (Nat.add_0_r i) at 1. rewrite K, H3.
    rewrite skipn_skipn.
    replace (s - i + i)%nat with s by lia. f_equal.
    rewrite <- K. f_equal. destruct (e =? s)%nat; lia.
  - rewrite <- (Nat.add_0_r i). rewrite K. exact H.
Qed.


Lemma RegExpBuiltinExec_at (h : Heap) (r : nat) (rx : RegExp)
      (str : jsstring) :
  nth_error h r = Some rx ->
  RegExpBuiltinExec r str h
  = if (length str <? lastIndex rx)%nat
    then Some (None, store h r (setLastIndex O rx))
    else
      match search (matcher (pattern rx)) (lastIndex rx)
                   (lastOf None (firstn (lastIndex rx) str))
                   (skipn (lastIndex rx) str) with
      | None => Some (None, store h r (setLastIndex O rx))
      | Some (s, e) => Some (Some (s, e), store h r (setLastIndex e rx))
      end.
Proof.
  intros H. unfold RegExpBuiltinExec, bind. rewrite (Get_at _ _ _ H).
  destruct (length str <? lastIndex rx)%nat.
  - rewrite (SetLastIndex_at _ _ _ _ H). reflexivity.
  - destruct (search _ _ _ _) as [[s e]|];
      rewrite (SetLastIndex_at _ _ _ _ H); reflexivity.
Qed.

(** The loop of [match], from any [lastIndex], collects what the scan
    finds from there on, and leaves [lastIndex] at 0; the fuel is enough
    when it covers the positions that are left. *)
Lemma matchLoop_scan (str : jsstring) (r : nat) :
  forall fuel A h rx,
    nth_error h r = Some rx ->
    (lastIndex rx <= length str + 1)%nat ->
    (length str + 2 <= fuel + lastIndex rx)%nat ->
    matchLoop fuel r str A h
    = Some (A ++ scan (matcher (pattern rx)) (lastIndex rx) None str,
            store h r (setLastIndex O rx)).
Proof.
  induction fuel as [|fuel IH]; intros A h rx H B F; [lia|].
  cbn [matchLoop]. unfold bind at 1.
  rewrite (RegExpBuiltinExec_at _ _ _ _ H).
  destruct (length str <? lastIndex rx)%nat eqn:L.
  - apply Nat.ltb_lt in L. rewrite scan_beyond by exact L.
    rewrite app_nil_r. reflexivity.
  - apply Nat.ltb_ge in L.
    pose proof (scan_search_at (matcher (pattern rx)) str (lastIndex rx) L)
      as S.
    destruct (search _ _ _ _) as [[s e]|].
    + destruct S as [S1 [S2 S3]].
      assert (H' : nth_error (store h r (setLastIndex e rx)) r
                   = Some (setLastIndex e rx))
        by (apply (nth_error_store _ _ _ _ H)).
      set (next := if (e =? s)%nat then S e else e) in *.
      assert (E : (match firstn (e - s) (skipn s str) with
                   | [] => Get r >>= fun R => SetLastIndex r (S (lastIndex R))
                   | _ :: _ => ret tt
                   end) (store h r (setLastIndex e rx))
                  = Some (tt, store h r (setLastIndex next rx))).
      { unfold next. destruct (e =? s)%nat eqn:Q.
        - apply Nat.eqb_eq in Q. subst e. rewrite Nat.sub_diag.
          cbn [firstn]. unfold bind. rewrite (Get_at _ _ _ H').
          rewrite (SetLastIndex_at _ _ _ _ H'), store_store. reflexivity.
        - apply Nat.eqb_neq in Q.
          destruct (firstn (e - s) (skipn s str)) eqn:Em; [|reflexivity].
          apply (f_equal (@length codeunit)) in Em.
          rewrite length_firstn, length_skipn in Em. cbn [length] in Em.
          lia. }
      unfold bind at 1. rewrite E.
      rewrite (IH _ _ (setLastIndex next rx)).
      * cbn [pattern lastIndex setLastIndex]. rewrite store_store, S3.
        rewrite <- app_assoc. reflexivity.
      * apply (nth_error_store _ _ _ _ H).
      * cbn [lastIndex setLastIndex]. unfold next.
        destruct (e =? s)%nat; lia.
      * cbn [lastIndex setLastIndex]. unfold next.
        destruct (e =? s)%nat eqn:Q;
          [apply Nat.eqb_eq in Q|apply Nat.eqb_neq in Q]; lia.
    + rewrite S, app_nil_r. reflexivity.
Qed.

(** [match] on an object of the heap: the array that the scan gives from
    index 0, whatever the [lastIndex] of the object was, and the object
    left with [lastIndex] 0; nothing else on the heap changes. *)
Lemma RegExpMatch_at (h : Heap) (r : nat) (rx : RegExp) (str : jsstring) :
  nth_error h r = Some rx ->
  RegExpMatch r str h
  = Some (fst (String_match str rx), store h r (setLastIndex O rx)).
Proof.
  intros H. unfold RegExpMatch, bind.
  rewrite (SetLastIndex_at _ _ _ _ H).
  rewrite (matchLoop_scan str r _ [] _ (setLastIndex O rx)).
  - cbn [app pattern lastIndex setLastIndex String_match fst].
    rewrite store_store.
    destruct (scan (matcher (pattern rx)) O None str); reflexivity.
  - apply (nth_error_store _ _ _ _ H).
  - cbn. lia.
  - cbn [lastIndex setLastIndex]. lia.
Qed.

Lemma matchLength_at (h : Heap) (text : jsstring) (re : regex) :
  matchLength text re h = Some (matchCount text re, h ++ [RegExpLiteral re]).
Proof.
  unfold matchLength, RegExpCreate, bind.
  rewrite (RegExpMatch_at _ _ (RegExpLiteral re)).
  - rewrite store_new. reflexivity.
  - rewrite nth_error_app2, Nat.sub_diag by lia. reflexivity.
Qed.

Lemma OnHeap_analyzeCode_at (text language : jsstring) (h : Heap) :
  exists created,
    OnHeap.analyzeCode text language h
    = Some (Extension.analyzeCode text language, h ++ created)
    /\ Forall (fun rx => lastIndex rx = O) created.
Proof.
  unfold OnHeap.analyzeCode, Extension.analyzeCode.
  repeat match goal with
    | |- context [isOneOf language ?tags] => destruct (isOneOf language tags)
    end;
    unfold bind; rewrite ?matchLength_at; unfold ret;
    rewrite <- ?app_assoc; cbn [app];
    (eexists; split; [reflexivity|repeat constructor]) ||
    (exists []; rewrite app_nil_r; split; [reflexivity|constructor]).
Qed.

(** C9.  [analyzeCode] is deterministic and stateless.  Run on any heap,
    whatever regular expression objects it holds and whatever their
    [lastIndex], the call succeeds and returns the counts that depend on
    the text and the language alone; it leaves every object of that heap
    as it was, and the objects it creates end with [lastIndex] 0.  Two
    calls in a row on the same arguments, the second on the heap that the
    first leaves, return the same result. *)
Theorem analyzeCode_stateless :
  forall text language h,
    exists created,
      OnHeap.analyzeCode text language h
      = Some (Extension.analyzeCode text language, h ++ created)
      /\ Forall (fun rx => lastIndex rx = O) created
      /\ exists created',
          (OnHeap.analyzeCode text language >>= fun first =>
           OnHeap.analyzeCode text language >>= fun second =>
           ret (first, second)) h
          = Some ((Extension.analyzeCode text language,
                   Extension.analyzeCode text language),
                  h ++ created').
Proof.
  intros text language h.
  destruct (OnHeap_analyzeCode_at text language h) as [c1 [E1 F1]].
  destruct (OnHeap_analyzeCode_at text language (h ++ c1)) as [c2 [E2 _]].
  exists c1. split; [exact E1|]. split; [exact F1|].
  exists (c1 ++ c2). unfold bind. rewrite E1, E2. unfold ret.
  rewrite app_assoc. reflexivity.
Qed.
